(** * Presence and call-signalling relay (src/index.js)

    A shallow embedding of the Socket.io handlers of [src/index.js]
    (lines 64-188): the process-wide array [onlineUsers], the process-wide
    [Map] [activeCalls], and the six handlers registered on every
    connection.  Handlers are written in a small state / output / exception
    monad so that each definition can be read next to the JavaScript it
    embeds. *)

From Stdlib Require Import List String ZArith Bool Lia.
Import ListNotations.
Open Scope string_scope.

(** ** JavaScript values carried by the signalling payloads *)

(** Fields of a payload are JSON scalars.  A number is an integer or [NaN];
    the cases the handlers can tell apart (zero against non-zero, [NaN]
    against the rest) are all present. *)
Inductive value : Type :=
  | VUndefined
  | VNull
  | VBool (b : bool)
  | VNum (z : Z)
  | VNaN
  | VStr (s : string).

(** [!v] is [negb (truthy v)]. *)
Definition truthy (v : value) : bool :=
  match v with
  | VUndefined | VNull | VNaN => false
  | VBool b => b
  | VNum z => negb (z =? 0)%Z
  | VStr s => negb (s =? "")
  end.

(** SameValueZero, the key comparison of a JavaScript [Map]. *)
Definition same_value_zero (a b : value) : bool :=
  match a, b with
  | VUndefined, VUndefined => true
  | VNull, VNull => true
  | VBool x, VBool y => Bool.eqb x y
  | VNum x, VNum y => (x =? y)%Z
  | VNaN, VNaN => true
  | VStr x, VStr y => (x =? y)
  | _, _ => false
  end.

(** [a === b]: as SameValueZero, except that [NaN] equals nothing. *)
Definition strict_eq (a b : value) : bool :=
  match a with
  | VNaN => false
  | _ => same_value_zero a b
  end.

Notation "a === b" := (strict_eq a b) (at level 70, no associativity).

(** An event payload as the handler receives it: a scalar (in particular
    [undefined] when the client sent none) or an object with scalar
    fields. *)
Inductive payload : Type :=
  | PVal (v : value)
  | PObj (fields : list (string * value)).

Definition payload_truthy (p : payload) : bool :=
  match p with
  | PVal v => truthy v
  | PObj _ => true
  end.

Fixpoint lookup_field (k : string) (fields : list (string * value)) : value :=
  match fields with
  | [] => VUndefined
  | (k', v) :: rest => if k' =? k then v else lookup_field k rest
  end.

(** ** The two tables *)

(** An element of [onlineUsers] (index.js:89-93).  [socket.id] is always a
    string. *)
Record user_entry : Type := mkUser {
  userId : value;
  name : value;
  socketId : string
}.

(** A value of [activeCalls] (index.js:142-143): [{ with, socketId }]. *)
Record call_record : Type := mkCall {
  with_ : value;
  call_socketId : value
}.

(** A JavaScript [Map]: entries in insertion order, keys pairwise distinct
    under SameValueZero. *)
Definition jsmap : Type := list (value * call_record).

Definition Map_has (k : value) (m : jsmap) : bool :=
  existsb (fun e => same_value_zero (fst e) k) m.

Fixpoint Map_get (k : value) (m : jsmap) : option call_record :=
  match m with
  | [] => None
  | (k', r) :: rest => if same_value_zero k' k then Some r else Map_get k rest
  end.

(** [m.set(k, r)]: an existing key keeps its position and takes the new
    value, a new key goes last. *)
Fixpoint Map_set (k : value) (r : call_record) (m : jsmap) : jsmap :=
  match m with
  | [] => [(k, r)]
  | (k', r') :: rest =>
      if same_value_zero k' k then (k', r) :: rest
      else (k', r') :: Map_set k r rest
  end.

Definition Map_delete (k : value) (m : jsmap) : jsmap :=
  filter (fun e => negb (same_value_zero (fst e) k)) m.

Definition Map_entries (m : jsmap) : list (value * call_record) := m.

Record state : Type := mkState {
  onlineUsers : list user_entry;
  activeCalls : jsmap
}.

(** index.js:65-66. *)
Definition initial : state := {| onlineUsers := []; activeCalls := [] |}.

(** ** What a handler does to the outside *)

Inductive target : Type :=
  | ToSocket (sid : string)      (* socket.emit *)
  | ToRoom (room : value)        (* io.to(room).emit *)
  | ToAll                        (* io.emit *)
  | ToOthers (sid : string).     (* socket.broadcast.emit *)

Inductive message : Type :=
  | MId (sid : string)
  | MUsers (users : list user_entry)
  | MObj (fields : list (string * value)).

Inductive effect : Type :=
  | Emit (t : target) (ev : string) (m : message)
  | JoinRoom (sid : string) (room : value)
  | ConsoleLog (line : string)
  | ConsoleWarn (line : string).

(** ** The handler monad *)

Inductive completion (A : Type) : Type :=
  | Normal (a : A)
  | Throw (err : string).
Arguments Normal {A} a.
Arguments Throw {A} err.

(** A thrown exception does not roll anything back: the state and the
    output reached at the throw are kept. *)
Record outcome (A : Type) : Type := mkOutcome {
  res : completion A;
  st : state;
  out : list effect
}.
Arguments mkOutcome {A}.
Arguments res {A}.
Arguments st {A}.
Arguments out {A}.

Definition M (A : Type) : Type := state -> outcome A.

Definition ret {A} (a : A) : M A :=
  fun s => mkOutcome (Normal a) s [].

Definition bind {A B} (m : M A) (k : A -> M B) : M B :=
  fun s =>
    match m s with
    | mkOutcome (Normal a) s1 o1 =>
        match k a s1 with
        | mkOutcome r s2 o2 => mkOutcome r s2 (o1 ++ o2)
        end
    | mkOutcome (Throw e) s1 o1 => mkOutcome (Throw e) s1 o1
    end.

Notation "x <- m ;; k" := (bind m (fun x => k))
  (at level 61, m at next level, right associativity).
Notation "m ;; k" := (bind m (fun _ => k))
  (at level 61, right associativity).

Definition throw {A} (err : string) : M A :=
  fun s => mkOutcome (Throw err) s [].

Definition gets {A} (f : state -> A) : M A :=
  fun s => mkOutcome (Normal (f s)) s [].

Definition set_onlineUsers (us : list user_entry) : M unit :=
  fun s => mkOutcome (Normal tt) (mkState us (activeCalls s)) [].

Definition modify_activeCalls (f : jsmap -> jsmap) : M unit :=
  fun s => mkOutcome (Normal tt) (mkState (onlineUsers s) (f (activeCalls s))) [].

Definition tell (e : effect) : M unit :=
  fun s => mkOutcome (Normal tt) s [e].

(** [data.k]: a [TypeError] on [undefined] and [null], [undefined] on any
    other scalar (none of the names read by the handlers is a property of
    a string, number or boolean). *)
Definition field (p : payload) (k : string) : option value :=
  match p with
  | PVal VUndefined | PVal VNull => None
  | PVal _ => Some VUndefined
  | PObj fields => Some (lookup_field k fields)
  end.

Definition prop (p : payload) (k : string) : M value :=
  match field p k with
  | Some v => ret v
  | None => throw "TypeError"
  end.

Fixpoint for_of {A} (l : list A) (body : A -> M unit) : M unit :=
  match l with
  | [] => ret tt
  | a :: rest => body a ;; for_of rest body
  end.

(** ** The handlers *)

(** [existingUser.socketId = socket.id] writes through the reference that
    [find] returned: the first matching element of the array changes in
    place. *)
Fixpoint update_first (p : user_entry -> bool) (f : user_entry -> user_entry)
    (l : list user_entry) : list user_entry :=
  match l with
  | [] => []
  | u :: rest => if p u then f u :: rest else u :: update_first p f rest
  end.

Definition set_socketId (sid : string) (u : user_entry) : user_entry :=
  {| userId := userId u; name := name u; socketId := sid |}.

(** index.js:69-73. *)
Definition on_connection (socket_id : string) : M unit :=
  tell (ConsoleLog ("[INFO] New connection: " ++ socket_id)) ;;
  tell (Emit (ToSocket socket_id) "me" (MId socket_id)).

(** index.js:76-97. *)
Definition on_join (socket_id : string) (user : payload) : M unit :=
  invalid <- (if negb (payload_truthy user) then ret true
              else id <- prop user "id" ;; ret (negb (truthy id))) ;;
  if (invalid : bool) then
    tell (ConsoleWarn "[WARNING] Invalid user data on join")
  else
    id <- prop user "id" ;;
    tell (JoinRoom socket_id id) ;;
    users <- gets onlineUsers ;;
    match find (fun u => userId u === id) users with
    | Some _ =>
        set_onlineUsers
          (update_first (fun u => userId u === id) (set_socketId socket_id) users)
    | None =>
        nm <- prop user "name" ;;
        set_onlineUsers
          (users ++ [{| userId := id; name := nm; socketId := socket_id |}])
    end ;;
    now <- gets onlineUsers ;;
    tell (Emit ToAll "online-users" (MUsers now)).

(** [array.find(pred)] where [pred] may throw: it runs on the elements in
    order, up to the first one it accepts, and on no element of an empty
    array. *)
Fixpoint find_with {A} (pred : A -> M bool) (l : list A) : M (option A) :=
  match l with
  | [] => ret None
  | a :: rest =>
      b <- pred a ;;
      if (b : bool) then ret (Some a) else find_with pred rest
  end.

(** [(user) => user.userId === data.callToUserId], the predicate of
    index.js:101; the payload is read each time it runs. *)
Definition is_callee (data : payload) (u : user_entry) : M bool :=
  callToUserId <- prop data "callToUserId" ;;
  ret (userId u === callToUserId).

(** index.js:100-132.  The payload is first read inside the predicate of
    [find]: with nobody online it is not read at all. *)
Definition on_callToUser (socket_id : string) (data : payload) : M unit :=
  users <- gets onlineUsers ;;
  callee <- find_with (is_callee data) users ;;
  match callee with
  | None =>
      tell (Emit (ToSocket socket_id) "userUnavailable"
              (MObj [("message", VStr "User is offline.")]))
  | Some callee =>
      calls <- gets activeCalls ;;
      callToUserId <- prop data "callToUserId" ;;
      if Map_has callToUserId calls then
        tell (Emit (ToSocket socket_id) "userBusy"
                (MObj [("message", VStr "User is currently in another call.")])) ;;
        from <- prop data "from" ;;
        nm <- prop data "name" ;;
        email <- prop data "email" ;;
        profilepic <- prop data "profilepic" ;;
        tell (Emit (ToRoom (VStr (socketId callee))) "incomingCallWhileBusy"
                (MObj [("from", from); ("name", nm); ("email", email);
                       ("profilepic", profilepic)]))
      else
        signal <- prop data "signalData" ;;
        from <- prop data "from" ;;
        nm <- prop data "name" ;;
        email <- prop data "email" ;;
        profilepic <- prop data "profilepic" ;;
        tell (Emit (ToRoom (VStr (socketId callee))) "callToUser"
                (MObj [("signal", signal); ("from", from); ("name", nm);
                       ("email", email); ("profilepic", profilepic)]))
  end.

(** index.js:135-144. *)
Definition on_answeredCall (socket_id : string) (data : payload) : M unit :=
  to <- prop data "to" ;;
  signal <- prop data "signal" ;;
  from <- prop data "from" ;;
  tell (Emit (ToRoom to) "callAccepted" (MObj [("signal", signal); ("from", from)])) ;;
  modify_activeCalls
    (Map_set from {| with_ := to; call_socketId := VStr socket_id |}) ;;
  modify_activeCalls
    (Map_set to {| with_ := from; call_socketId := to |}).

(** index.js:147-152. *)
Definition on_reject_call (socket_id : string) (data : payload) : M unit :=
  to <- prop data "to" ;;
  nm <- prop data "name" ;;
  profilepic <- prop data "profilepic" ;;
  tell (Emit (ToRoom to) "callRejected"
          (MObj [("name", nm); ("profilepic", profilepic)])).

(** index.js:155-163. *)
Definition on_call_ended (socket_id : string) (data : payload) : M unit :=
  to <- prop data "to" ;;
  nm <- prop data "name" ;;
  tell (Emit (ToRoom to) "callEnded" (MObj [("name", nm)])) ;;
  from <- prop data "from" ;;
  modify_activeCalls (Map_delete from) ;;
  modify_activeCalls (Map_delete to).

(** index.js:166-187.  The [for ... of] loop deletes nothing but the entry
    it is visiting, so it visits exactly the entries present when it
    starts. *)
Definition on_disconnect (socket_id : string) : M unit :=
  users <- gets onlineUsers ;;
  match find (fun u => socketId u =? socket_id) users with
  | Some user =>
      modify_activeCalls (Map_delete (userId user)) ;;
      entries <- gets (fun s => Map_entries (activeCalls s)) ;;
      for_of entries (fun kv =>
        if with_ (snd kv) === userId user
        then modify_activeCalls (Map_delete (fst kv))
        else ret tt)
  | None => ret tt
  end ;;
  users <- gets onlineUsers ;;
  set_onlineUsers (filter (fun u => negb (socketId u =? socket_id)) users) ;;
  now <- gets onlineUsers ;;
  tell (Emit ToAll "online-users" (MUsers now)) ;;
  tell (Emit (ToOthers socket_id) "discounnectUser"
          (MObj [("disUser", VStr socket_id)])) ;;
  tell (ConsoleLog ("[INFO] Disconnected: " ++ socket_id)).

(** An inbound event of one connection. *)
Inductive event : Type :=
  | Join (user : payload)
  | CallToUser (data : payload)
  | AnsweredCall (data : payload)
  | RejectCall (data : payload)
  | CallEnded (data : payload)
  | Disconnect.

Definition handle (socket_id : string) (e : event) : M unit :=
  match e with
  | Join user => on_join socket_id user
  | CallToUser data => on_callToUser socket_id data
  | AnsweredCall data => on_answeredCall socket_id data
  | RejectCall data => on_reject_call socket_id data
  | CallEnded data => on_call_ended socket_id data
  | Disconnect => on_disconnect socket_id
  end.

(** A run of [join] events, each with the connection it arrives on. *)
Definition run_joins (joins : list (string * payload)) (s : state) : state :=
  fold_left (fun s j => st (on_join (fst j) (snd j) s)) joins s.

(** A run of events of any kind.  A handler that throws has changed
    nothing by then (each reads its payload before it writes), so the state
    carried on does not depend on what becomes of the exception. *)
Definition run (events : list (string * event)) (s : state) : state :=
  fold_left (fun s e => st (handle (fst e) (snd e) s)) events s.

(** [activeCalls.has(id)], the busy test of index.js:111. *)
Definition isBusy (id : value) (s : state) : bool :=
  Map_has id (activeCalls s).

(** The guard of index.js:77, [!user || !user.id], as a value:
    [Some id] when the join goes through with that id. *)
Definition join_id (user : payload) : option value :=
  if negb (payload_truthy user) then None
  else match field user "id" with
       | Some id => if truthy id then Some id else None
       | None => None
       end.

(** The [online-users] emissions found in a handler's output. *)
Definition online_users_broadcasts (o : list effect) : list (target * message) :=
  flat_map (fun e =>
    match e with
    | Emit t ev m => if ev =? "online-users" then [(t, m)] else []
    | _ => []
    end) o.



(** [data.k] with [undefined] standing for what cannot be read. *)
Definition get (p : payload) (k : string) : value :=
  match field p k with
  | Some v => v
  | None => VUndefined
  end.

(** The array after lines 83-94 of a join that passed the guard. *)
Definition join_registry (socket_id : string) (id nm : value)
    (users : list user_entry) : list user_entry :=
  match find (fun u => userId u === id) users with
  | Some _ => update_first (fun u => userId u === id) (set_socketId socket_id) users
  | None => users ++ [{| userId := id; name := nm; socketId := socket_id |}]
  end.

(** The [Map] after the loop of index.js:172-174 run over [entries]. *)
Definition purge (id : value) (entries : list (value * call_record))
    (m : jsmap) : jsmap :=
  fold_left (fun m kv =>
    if with_ (snd kv) === id then Map_delete (fst kv) m else m) entries m.

(** What index.js:181-186 sends out, given the filtered array. *)
Definition disconnect_output (socket_id : string) (users : list user_entry)
    : list effect :=
  [Emit ToAll "online-users" (MUsers users);
   Emit (ToOthers socket_id) "discounnectUser" (MObj [("disUser", VStr socket_id)]);
   ConsoleLog ("[INFO] Disconnected: " ++ socket_id)].

(** The socket of the latest element of [joins] that passed the guard with
    an id [===] to [id], [acc] if there is none. *)
Definition latest_join_from (acc : option string) (id : value)
    (joins : list (string * payload)) : option string :=
  fold_left (fun acc j =>
    match join_id (snd j) with
    | Some id' => if id' === id then Some (fst j) else acc
    | None => acc
    end) joins acc.

Definition latest_join (id : value) (joins : list (string * payload))
    : option string :=
  latest_join_from None id joins.

(** [onlineUsers.find((u) => u.userId === id)?.socketId]. *)
Definition socket_of (id : value) (users : list user_entry) : option string :=
  option_map socketId (find (fun u => userId u === id) users).

(** The invariant of [onlineUsers]: ids pairwise distinct and all truthy. *)
Definition registry_ok (users : list user_entry) : Prop :=
  NoDup (map userId users) /\ Forall (fun v => truthy v = true) (map userId users).

(** ** The operations as the specification words them *)

(** Specification 4.1, [join]: "if an entry for [userId] exists, overwrite
    its [connectionId] and [displayName]; otherwise insert a new entry". *)
Definition join_spec (socket_id : string) (id nm : value)
    (users : list user_entry) : list user_entry :=
  match find (fun u => userId u === id) users with
  | Some _ =>
      update_first (fun u => userId u === id)
        (fun u => {| userId := userId u; name := nm; socketId := socket_id |})
        users
  | None => users ++ [{| userId := id; name := nm; socketId := socket_id |}]
  end.

(** Specification 4.2, [endCall(userId)]: "looks up the record for
    [userId], captures its peer, deletes both the record for [userId] and
    (if present) the peer's record naming [userId] back.  Safe to call when
    no record exists (no-op)". *)
Definition endCall_spec (id : value) (m : jsmap) : jsmap :=
  match Map_get id m with
  | None => m
  | Some r =>
      let peer := with_ r in
      let m' := Map_delete id m in
      match Map_get peer m' with
      | Some r' => if same_value_zero (with_ r') id then Map_delete peer m' else m'
      | None => m'
      end
  end.




(** ** Sample data *)

Definition alice : user_entry :=
  {| userId := VStr "u1"; name := VStr "Alice"; socketId := "s1" |}.
Definition bob : user_entry :=
  {| userId := VStr "u2"; name := VStr "Bob"; socketId := "s2" |}.

(** Alice and Bob online, nobody in a call. *)
Definition two_online : state :=
  {| onlineUsers := [alice; bob]; activeCalls := [] |}.

(** Alice and Bob online and in a call with each other, as
    [answeredCall] with [from = "u1"], [to = "u2"] on socket [s1] records
    it. *)
Definition in_call : state :=
  {| onlineUsers := [alice; bob];
     activeCalls :=
       [(VStr "u1", {| with_ := VStr "u2"; call_socketId := VStr "s1" |});
        (VStr "u2", {| with_ := VStr "u1"; call_socketId := VStr "u2" |})] |}.

Definition call_request (callee : string) : payload :=
  PObj [("callToUserId", VStr callee); ("signalData", VStr "offer");
        ("from", VStr "u3"); ("name", VStr "Carol");
        ("email", VStr "carol@example.org"); ("profilepic", VStr "carol.png")].

Definition rejoin_as_alicia : payload :=
  PObj [("id", VStr "u1"); ("name", VStr "Alicia")].


Definition accept_u1_u2 : payload :=
  PObj [("to", VStr "u2"); ("signal", VStr "answer"); ("from", VStr "u1")].

Definition sample_joins : list (string * payload) :=
  [("s1", PObj [("id", VStr "u1"); ("name", VStr "Alice")]);
   ("s2", PObj [("id", VStr "u2"); ("name", VStr "Bob")]);
   ("s3", PVal VUndefined);
   ("s4", PObj [("id", VStr "u1"); ("name", VStr "Al")])].

(** The caller ends the call naming somebody who is not the peer. *)
Definition end_u1_u3 : payload :=
  PObj [("to", VStr "u3"); ("name", VStr "Alice"); ("from", VStr "u1")].

Definition end_u1_u2 : payload :=
  PObj [("to", VStr "u2"); ("name", VStr "Alice"); ("from", VStr "u1")].

(** Alice and Bob join, Carol rings Bob, Alice accepts a call with Bob. *)
Definition sample_events : list (string * event) :=
  [("s1", Join (PObj [("id", VStr "u1"); ("name", VStr "Alice")]));
   ("s2", Join (PObj [("id", VStr "u2"); ("name", VStr "Bob")]));
   ("s3", CallToUser (call_request "u2"));
   ("s1", AnsweredCall accept_u1_u2)].

(** [data] is [undefined] or [null], the payloads on which [data.k]
    throws. *)
Definition nullish (p : payload) : bool :=
  match p with
  | PVal VUndefined | PVal VNull => true
  | _ => false
  end.


(** One socket joins under two ids; a third party is then in a call with
    the second id. *)
Definition two_ids_one_socket : list (string * event) :=
  [("s1", Join (PObj [("id", VStr "u1"); ("name", VStr "Alice")]));
   ("s1", Join (PObj [("id", VStr "u2"); ("name", VStr "Bob")]));
   ("s3", AnsweredCall
            (PObj [("to", VStr "u2"); ("signal", VStr "answer");
                   ("from", VStr "u3")]))].

(** * Properties *)

(** ** Comparisons *)

Lemma same_value_zero_spec (a b : value) :
  same_value_zero a b = true <-> a = b.
Proof.
  destruct a, b; simpl; split; intro H;
    try discriminate; try reflexivity; try congruence.
  - apply Bool.eqb_prop in H. now subst.
  - inversion H. apply Bool.eqb_reflx.
  - apply Z.eqb_eq in H. now subst.
  - inversion H. apply Z.eqb_refl.
  - apply String.eqb_eq in H. now subst.
  - inversion H. apply String.eqb_refl.
Qed.

Lemma same_value_zero_refl (a : value) : same_value_zero a a = true.
Proof. now apply same_value_zero_spec. Qed.

Lemma strict_eq_spec (a b : value) :
  (a === b) = true <-> a = b /\ a <> VNaN.
Proof.
  unfold strict_eq. destruct a;
    try (rewrite same_value_zero_spec; split;
         [intro; split; [assumption | discriminate] | tauto]).
  split; [discriminate | intros [_ H]; now elim H].
Qed.

Lemma truthy_not_NaN (a : value) : truthy a = true -> a <> VNaN.
Proof. intros H ->. discriminate. Qed.

Lemma strict_eq_truthy (a b : value) :
  truthy b = true -> ((a === b) = true <-> a = b).
Proof.
  intro T. rewrite strict_eq_spec. split; [tauto|].
  intros ->. split; [reflexivity | now apply truthy_not_NaN].
Qed.

Lemma strict_eq_refl_truthy (a : value) : truthy a = true -> (a === a) = true.
Proof. intro T. now apply strict_eq_truthy. Qed.

(** ** The [Map] operations *)

Lemma Map_has_In (k : value) (m : jsmap) :
  Map_has k m = true <-> exists r, In (k, r) m.
Proof.
  unfold Map_has. rewrite existsb_exists. split.
  - intros [[k' r] [Hin Heq]]. simpl in Heq.
    apply same_value_zero_spec in Heq. subst. now exists r.
  - intros [r Hin]. exists (k, r). split; [assumption|].
    apply same_value_zero_refl.
Qed.

Lemma Map_set_In (k : value) (r : call_record) (m : jsmap) :
  In (k, r) (Map_set k r m).
Proof.
  induction m as [|[k' r'] m IH]; simpl.
  - now left.
  - destruct (same_value_zero k' k) eqn:E.
    + apply same_value_zero_spec in E. subst. now left.
    + now right.
Qed.

Lemma Map_has_set_same (k : value) (r : call_record) (m : jsmap) :
  Map_has k (Map_set k r m) = true.
Proof. apply Map_has_In. exists r. apply Map_set_In. Qed.

Lemma Map_has_set_mono (k k' : value) (r : call_record) (m : jsmap) :
  Map_has k m = true -> Map_has k (Map_set k' r m) = true.
Proof.
  unfold Map_has. induction m as [|[k0 r0] m IH]; simpl; [discriminate|].
  destruct (same_value_zero k0 k) eqn:E; simpl.
  - intros _. destruct (same_value_zero k0 k'); simpl; now rewrite E.
  - intro H. destruct (same_value_zero k0 k'); simpl; rewrite E; simpl.
    + assumption.
    + now apply IH.
Qed.

Lemma Map_delete_In (k k' : value) (r : call_record) (m : jsmap) :
  In (k, r) (Map_delete k' m) <-> In (k, r) m /\ k <> k'.
Proof.
  unfold Map_delete. rewrite filter_In. simpl.
  rewrite negb_true_iff. split; intros [H1 H2]; split; try assumption.
  - intros ->. now rewrite same_value_zero_refl in H2.
  - destruct (same_value_zero k k') eqn:E; [|reflexivity].
    apply same_value_zero_spec in E. contradiction.
Qed.

Lemma Map_has_delete_same (k : value) (m : jsmap) :
  Map_has k (Map_delete k m) = false.
Proof.
  destruct (Map_has k (Map_delete k m)) eqn:E; [|reflexivity].
  apply Map_has_In in E. destruct E as [r Hin].
  apply Map_delete_In in Hin. now destruct Hin.
Qed.

Lemma Map_has_delete_false (k k' : value) (m : jsmap) :
  Map_has k m = false -> Map_has k (Map_delete k' m) = false.
Proof.
  intro H. destruct (Map_has k (Map_delete k' m)) eqn:E; [|reflexivity].
  apply Map_has_In in E. destruct E as [r Hin].
  apply Map_delete_In in Hin. destruct Hin as [Hin _].
  assert (Map_has k m = true) by (apply Map_has_In; now exists r).
  congruence.
Qed.

(** ** Payload access *)

Lemma field_get (p : payload) (k k' : string) (v : value) :
  field p k = Some v -> field p k' = Some (get p k').
Proof.
  unfold get. destruct p as [[]|]; simpl; intro H; try discriminate; reflexivity.
Qed.

Lemma join_id_Some (user : payload) (id : value) :
  join_id user = Some id <->
  payload_truthy user = true /\ get user "id" = id /\ truthy id = true.
Proof.
  unfold join_id, get.
  destruct (payload_truthy user) eqn:P; simpl.
  - destruct (field user "id") as [v|] eqn:F.
    + destruct (truthy v) eqn:T; split.
      * intros [= <-]. auto.
      * intros (_ & <- & _). reflexivity.
      * discriminate.
      * intros (_ & <- & T'). congruence.
    + split; [discriminate|]. intros (_ & <- & T). discriminate.
  - split; [discriminate|]. intros (H & _). discriminate.
Qed.


(** ** The handlers, one equation each *)

Lemma on_join_dropped (socket_id : string) (user : payload) (s : state) :
  join_id user = None ->
  on_join socket_id user s =
  mkOutcome (Normal tt) s [ConsoleWarn "[WARNING] Invalid user data on join"].
Proof.
  unfold join_id, on_join, bind, prop.
  destruct (payload_truthy user) eqn:P; simpl; [|reflexivity].
  destruct (field user "id") as [id|] eqn:F; simpl.
  - destruct (truthy id); simpl; [discriminate | reflexivity].
  - destruct user as [[]|]; discriminate.
Qed.

Lemma on_join_passed (socket_id : string) (user : payload) (id : value) (s : state) :
  join_id user = Some id ->
  let users' := join_registry socket_id id (get user "name") (onlineUsers s) in
  on_join socket_id user s =
  mkOutcome (Normal tt) (mkState users' (activeCalls s))
    [JoinRoom socket_id id; Emit ToAll "online-users" (MUsers users')].
Proof.
  unfold join_id, on_join, join_registry, get, bind, prop.
  destruct (payload_truthy user); simpl; [|discriminate].
  destruct (field user "id") as [v|] eqn:F; simpl; [|discriminate].
  destruct (truthy v); simpl; [|discriminate].
  intros [= ->].
  rewrite (field_get user "id" "name" id F). unfold get.
  destruct (find _ (onlineUsers s)); simpl.
  - reflexivity.
  - destruct (field user "name"); reflexivity.
Qed.

Lemma is_callee_readable (data : payload) (id : value) (u : user_entry) (s : state) :
  field data "callToUserId" = Some id ->
  is_callee data u s = mkOutcome (Normal (userId u === id)) s [].
Proof.
  intro F. unfold is_callee, bind, prop. now rewrite F.
Qed.

Lemma find_with_readable (data : payload) (id : value) (users : list user_entry)
    (s : state) :
  field data "callToUserId" = Some id ->
  find_with (is_callee data) users s =
  mkOutcome (Normal (find (fun u => userId u === id) users)) s [].
Proof.
  intro F. induction users as [|u users IH]; simpl; [reflexivity|].
  unfold bind. rewrite (is_callee_readable _ _ _ _ F).
  destruct (userId u === id); [reflexivity|].
  now rewrite IH.
Qed.

Lemma find_with_nullish (data : payload) (u : user_entry) (users : list user_entry)
    (s : state) :
  field data "callToUserId" = None ->
  find_with (is_callee data) (u :: users) s = mkOutcome (Throw "TypeError") s [].
Proof.
  intro F. simpl. unfold bind, is_callee, bind, prop. now rewrite F.
Qed.

Lemma on_callToUser_absent (socket_id : string) (data : payload)
    (id : value) (s : state) :
  field data "callToUserId" = Some id ->
  find (fun u => userId u === id) (onlineUsers s) = None ->
  on_callToUser socket_id data s =
  mkOutcome (Normal tt) s
    [Emit (ToSocket socket_id) "userUnavailable"
       (MObj [("message", VStr "User is offline.")])].
Proof.
  intros F N. unfold on_callToUser, bind at 1 2. simpl.
  rewrite (find_with_readable _ _ _ _ F), N. reflexivity.
Qed.

Lemma on_callToUser_busy (socket_id : string) (data : payload)
    (id : value) (callee : user_entry) (s : state) :
  field data "callToUserId" = Some id ->
  find (fun u => userId u === id) (onlineUsers s) = Some callee ->
  Map_has id (activeCalls s) = true ->
  on_callToUser socket_id data s =
  mkOutcome (Normal tt) s
    [Emit (ToSocket socket_id) "userBusy"
       (MObj [("message", VStr "User is currently in another call.")]);
     Emit (ToRoom (VStr (socketId callee))) "incomingCallWhileBusy"
       (MObj [("from", get data "from"); ("name", get data "name");
              ("email", get data "email");
              ("profilepic", get data "profilepic")])].
Proof.
  intros F N B. unfold on_callToUser, bind at 1 2. simpl.
  rewrite (find_with_readable _ _ _ _ F), N.
  unfold bind, prop. rewrite F. simpl. rewrite B. simpl.
  rewrite (field_get data _ "from" id F), (field_get data _ "name" id F),
    (field_get data _ "email" id F), (field_get data _ "profilepic" id F).
  reflexivity.
Qed.

Lemma on_callToUser_free (socket_id : string) (data : payload)
    (id : value) (callee : user_entry) (s : state) :
  field data "callToUserId" = Some id ->
  find (fun u => userId u === id) (onlineUsers s) = Some callee ->
  Map_has id (activeCalls s) = false ->
  on_callToUser socket_id data s =
  mkOutcome (Normal tt) s
    [Emit (ToRoom (VStr (socketId callee))) "callToUser"
       (MObj [("signal", get data "signalData"); ("from", get data "from");
              ("name", get data "name"); ("email", get data "email");
              ("profilepic", get data "profilepic")])].
Proof.
  intros F N B. unfold on_callToUser, bind at 1 2. simpl.
  rewrite (find_with_readable _ _ _ _ F), N.
  unfold bind, prop. rewrite F. simpl. rewrite B. simpl.
  rewrite (field_get data _ "signalData" id F),
    (field_get data _ "from" id F), (field_get data _ "name" id F),
    (field_get data _ "email" id F), (field_get data _ "profilepic" id F).
  reflexivity.
Qed.

(** A payload of [undefined] or [null]: with nobody online the request is
    answered like any other, otherwise the predicate of [find] throws on
    the first element. *)
Lemma on_callToUser_nullish (socket_id : string) (data : payload) (s : state) :
  field data "callToUserId" = None ->
  on_callToUser socket_id data s =
  match onlineUsers s with
  | [] =>
      mkOutcome (Normal tt) s
        [Emit (ToSocket socket_id) "userUnavailable"
           (MObj [("message", VStr "User is offline.")])]
  | _ :: _ => mkOutcome (Throw "TypeError") s []
  end.
Proof.
  intro F. unfold on_callToUser, bind at 1 2. simpl.
  destruct (onlineUsers s) as [|u users].
  - reflexivity.
  - now rewrite (find_with_nullish _ _ _ _ F).
Qed.

Lemma on_callToUser_st (socket_id : string) (data : payload) (s : state) :
  st (on_callToUser socket_id data s) = s.
Proof.
  destruct (field data "callToUserId") as [id|] eqn:F.
  - destruct (find (fun u => userId u === id) (onlineUsers s)) as [callee|] eqn:N.
    + destruct (Map_has id (activeCalls s)) eqn:B.
      * now rewrite (on_callToUser_busy _ _ _ _ _ F N B).
      * now rewrite (on_callToUser_free _ _ _ _ _ F N B).
    + now rewrite (on_callToUser_absent _ _ _ _ F N).
  - rewrite (on_callToUser_nullish _ _ _ F). now destruct (onlineUsers s).
Qed.

Lemma on_answeredCall_eq (socket_id : string) (data : payload)
    (v : value) (s : state) :
  field data "to" = Some v ->
  let from := get data "from" in
  let to := get data "to" in
  on_answeredCall socket_id data s =
  mkOutcome (Normal tt)
    (mkState (onlineUsers s)
       (Map_set to {| with_ := from; call_socketId := to |}
          (Map_set from {| with_ := to; call_socketId := VStr socket_id |}
             (activeCalls s))))
    [Emit (ToRoom to) "callAccepted"
       (MObj [("signal", get data "signal"); ("from", from)])].
Proof.
  intros F. unfold on_answeredCall, bind, prop.
  rewrite (field_get data _ "to" v F), (field_get data _ "signal" v F),
    (field_get data _ "from" v F).
  reflexivity.
Qed.

Lemma on_call_ended_eq (socket_id : string) (data : payload)
    (v : value) (s : state) :
  field data "to" = Some v ->
  on_call_ended socket_id data s =
  mkOutcome (Normal tt)
    (mkState (onlineUsers s)
       (Map_delete (get data "to") (Map_delete (get data "from") (activeCalls s))))
    [Emit (ToRoom (get data "to")) "callEnded" (MObj [("name", get data "name")])].
Proof.
  intros F. unfold on_call_ended, bind, prop.
  rewrite (field_get data _ "to" v F), (field_get data _ "name" v F),
    (field_get data _ "from" v F).
  reflexivity.
Qed.

Lemma for_of_purge (id : value) (entries : list (value * call_record)) (s : state) :
  for_of entries (fun kv =>
    if with_ (snd kv) === id
    then modify_activeCalls (Map_delete (fst kv))
    else ret tt) s =
  mkOutcome (Normal tt)
    (mkState (onlineUsers s) (purge id entries (activeCalls s))) [].
Proof.
  revert s. induction entries as [|kv entries IH]; intro s.
  - destruct s; reflexivity.
  - simpl. unfold bind.
    destruct (with_ (snd kv) === id); simpl; rewrite IH; reflexivity.
Qed.

Lemma on_disconnect_found (socket_id : string) (user : user_entry) (s : state) :
  find (fun u => socketId u =? socket_id) (onlineUsers s) = Some user ->
  let users' := filter (fun u => negb (socketId u =? socket_id)) (onlineUsers s) in
  let calls := Map_delete (userId user) (activeCalls s) in
  on_disconnect socket_id s =
  mkOutcome (Normal tt) (mkState users' (purge (userId user) calls calls))
    (disconnect_output socket_id users').
Proof.
  intros F. unfold on_disconnect, bind. simpl. rewrite F. simpl.
  unfold bind. simpl. rewrite for_of_purge. reflexivity.
Qed.

Lemma on_disconnect_unknown (socket_id : string) (s : state) :
  find (fun u => socketId u =? socket_id) (onlineUsers s) = None ->
  let users' := filter (fun u => negb (socketId u =? socket_id)) (onlineUsers s) in
  on_disconnect socket_id s =
  mkOutcome (Normal tt) (mkState users' (activeCalls s))
    (disconnect_output socket_id users').
Proof.
  intros F. unfold on_disconnect, bind. simpl. rewrite F. reflexivity.
Qed.

Lemma on_disconnect_out (socket_id : string) (s : state) :
  let o := on_disconnect socket_id s in
  onlineUsers (st o) =
    filter (fun u => negb (socketId u =? socket_id)) (onlineUsers s) /\
  out o = disconnect_output socket_id (onlineUsers (st o)).
Proof.
  destruct (find (fun u => socketId u =? socket_id) (onlineUsers s)) as [u|] eqn:F.
  - rewrite (on_disconnect_found _ _ _ F). simpl. split; reflexivity.
  - rewrite (on_disconnect_unknown _ _ F). simpl. split; reflexivity.
Qed.

(** ** Call requests (index.js:100-132) *)

(** C9: the [callToUser] handler leaves [onlineUsers] and [activeCalls] as
    they were, in the branch where the callee is absent, in the branch where
    the callee is busy and in the branch where the call is forwarded.  It
    returns normally except for a payload of [undefined] or [null] met with
    somebody online, which throws before anything is touched. *)
Theorem callToUser_preserves_state (socket_id : string) (data : payload) (s : state) :
  st (on_callToUser socket_id data s) = s /\
  res (on_callToUser socket_id data s) =
    match field data "callToUserId", onlineUsers s with
    | None, _ :: _ => Throw "TypeError"
    | _, _ => Normal tt
    end.
Proof.
  destruct (field data "callToUserId") as [id|] eqn:F.
  - destruct (find (fun u => userId u === id) (onlineUsers s)) as [callee|] eqn:N.
    + destruct (Map_has id (activeCalls s)) eqn:B.
      * rewrite (on_callToUser_busy _ _ _ _ _ F N B).
        split; [reflexivity | now destruct (onlineUsers s)].
      * rewrite (on_callToUser_free _ _ _ _ _ F N B).
        split; [reflexivity | now destruct (onlineUsers s)].
    + rewrite (on_callToUser_absent _ _ _ _ F N).
      split; [reflexivity | now destruct (onlineUsers s)].
  - rewrite (on_callToUser_nullish _ _ _ F).
    destruct (onlineUsers s); split; reflexivity.
Qed.

(** C5: a call request whose [callToUserId] matches no element of
    [onlineUsers] returns normally, with the state untouched and a single
    output: [userUnavailable] emitted on the requesting socket. *)
Theorem callToUser_unregistered_callee (socket_id : string) (data : payload)
    (id : value) (s : state) :
  field data "callToUserId" = Some id ->
  (forall u, In u (onlineUsers s) -> (userId u === id) = false) ->
  on_callToUser socket_id data s =
  mkOutcome (Normal tt) s
    [Emit (ToSocket socket_id) "userUnavailable"
       (MObj [("message", VStr "User is offline.")])].
Proof.
  intros F H. apply on_callToUser_absent with (id := id); [assumption|].
  destruct (find _ (onlineUsers s)) as [u|] eqn:E; [|reflexivity].
  apply find_some in E. destruct E as [Hin Heq].
  rewrite (H u Hin) in Heq. discriminate.
Qed.

(** C6: a call request whose [callToUserId] is found in [onlineUsers] and is
    a key of [activeCalls] emits [userBusy] on the requesting socket, then
    [incomingCallWhileBusy] with the request's [from], [name], [email] and
    [profilepic] to the socket id held by the callee's element of
    [onlineUsers]; nothing else is output and the state, [activeCalls]
    included, is untouched. *)
Theorem callToUser_busy_callee (socket_id : string) (data : payload)
    (id : value) (callee : user_entry) (s : state) :
  field data "callToUserId" = Some id ->
  find (fun u => userId u === id) (onlineUsers s) = Some callee ->
  isBusy id s = true ->
  on_callToUser socket_id data s =
  mkOutcome (Normal tt) s
    [Emit (ToSocket socket_id) "userBusy"
       (MObj [("message", VStr "User is currently in another call.")]);
     Emit (ToRoom (VStr (socketId callee))) "incomingCallWhileBusy"
       (MObj [("from", get data "from"); ("name", get data "name");
              ("email", get data "email");
              ("profilepic", get data "profilepic")])].
Proof.
  intros F N B. now apply on_callToUser_busy with (id := id).
Qed.

Lemma callToUser_unregistered_callee_witness :
  field (call_request "u9") "callToUserId" = Some (VStr "u9") /\
  (forall u, In u (onlineUsers two_online) -> (userId u === VStr "u9") = false) /\
  on_callToUser "s3" (call_request "u9") two_online =
  mkOutcome (Normal tt) two_online
    [Emit (ToSocket "s3") "userUnavailable"
       (MObj [("message", VStr "User is offline.")])].
Proof.
  assert (H : forall u, In u (onlineUsers two_online) ->
                        (userId u === VStr "u9") = false).
  { intros u [<-|[<-|[]]]; reflexivity. }
  split; [reflexivity|]. split; [exact H|].
  apply (callToUser_unregistered_callee "s3" (call_request "u9") (VStr "u9")
           two_online); [reflexivity | exact H].
Defined.

Lemma callToUser_busy_callee_witness :
  isBusy (VStr "u2") in_call = true /\
  on_callToUser "s3" (call_request "u2") in_call =
  mkOutcome (Normal tt) in_call
    [Emit (ToSocket "s3") "userBusy"
       (MObj [("message", VStr "User is currently in another call.")]);
     Emit (ToRoom (VStr "s2")) "incomingCallWhileBusy"
       (MObj [("from", VStr "u3"); ("name", VStr "Carol");
              ("email", VStr "carol@example.org");
              ("profilepic", VStr "carol.png")])].
Proof.
  split; [reflexivity|].
  apply (callToUser_busy_callee "s3" (call_request "u2") (VStr "u2") bob in_call);
    reflexivity.
Defined.

(** ** Disconnect (index.js:166-187) *)

Lemma find_none_filter {A} (p : A -> bool) (l : list A) :
  find p l = None -> filter (fun a => negb (p a)) l = l.
Proof.
  induction l as [|a l IH]; simpl; [reflexivity|].
  destruct (p a); simpl; [discriminate|].
  intro H. now rewrite IH.
Qed.

Lemma find_none_iff {A} (p : A -> bool) (l : list A) :
  find p l = None <-> forall a, In a l -> p a = false.
Proof.
  split.
  - intros H a Hin. now apply (find_none p l H).
  - intro H. destruct (find p l) as [a|] eqn:E; [|reflexivity].
    apply find_some in E. destruct E as [Hin Hp].
    rewrite (H a Hin) in Hp. discriminate.
Qed.

(** C10: when no element of [onlineUsers] carries the socket's id, the
    disconnect handler leaves [activeCalls] and the contents of
    [onlineUsers] as they were and still sends [online-users] with that
    array to everyone, then [discounnectUser] with the socket's own id to
    every other socket. *)
Theorem disconnect_never_joined (socket_id : string) (s : state) :
  (forall u, In u (onlineUsers s) -> socketId u <> socket_id) ->
  on_disconnect socket_id s =
  mkOutcome (Normal tt) s
    [Emit ToAll "online-users" (MUsers (onlineUsers s));
     Emit (ToOthers socket_id) "discounnectUser"
       (MObj [("disUser", VStr socket_id)]);
     ConsoleLog ("[INFO] Disconnected: " ++ socket_id)].
Proof.
  intro H.
  assert (F : find (fun u => socketId u =? socket_id) (onlineUsers s) = None).
  { apply find_none_iff. intros u Hin. apply String.eqb_neq. now apply H. }
  rewrite (on_disconnect_unknown _ _ F). simpl.
  rewrite (find_none_filter _ _ F). destruct s; reflexivity.
Qed.

Lemma disconnect_never_joined_witness :
  (forall u, In u (onlineUsers in_call) -> socketId u <> "s7") /\
  on_disconnect "s7" in_call =
  mkOutcome (Normal tt) in_call
    [Emit ToAll "online-users" (MUsers [alice; bob]);
     Emit (ToOthers "s7") "discounnectUser" (MObj [("disUser", VStr "s7")]);
     ConsoleLog "[INFO] Disconnected: s7"].
Proof.
  assert (H : forall u, In u (onlineUsers in_call) -> socketId u <> "s7").
  { intros u [<-|[<-|[]]]; discriminate. }
  split; [exact H|]. exact (disconnect_never_joined "s7" in_call H).
Defined.

Lemma purge_In (id : value) (entries : list (value * call_record)) :
  forall (m : jsmap) (k : value) (r : call_record),
  In (k, r) (purge id entries m) ->
  In (k, r) m /\
  forall k' r', In (k', r') entries -> (with_ r' === id) = true -> k <> k'.
Proof.
  induction entries as [|[k0 r0] entries IH]; intros m k r Hin.
  - split; [assumption | intros k' r' []].
  - simpl in Hin. apply IH in Hin. destruct Hin as [Hin Hrest].
    destruct (with_ r0 === id) eqn:E.
    + apply Map_delete_In in Hin. destruct Hin as [Hin Hne].
      split; [assumption|]. intros k' r' [Heq|Hin'] Hw.
      * now inversion Heq; subst.
      * now apply (Hrest k' r').
    + split; [assumption|]. intros k' r' [Heq|Hin'] Hw.
      * inversion Heq; subst. congruence.
      * now apply (Hrest k' r').
Qed.

(** In any state, when the handler resolves the socket to [user], the
    [activeCalls] it leaves has no entry under that user's id and no entry
    whose [with] is [===] to that id; the handler only removes entries. *)
Lemma on_disconnect_purges (socket_id : string) (user : user_entry) (s : state) :
  find (fun u => socketId u =? socket_id) (onlineUsers s) = Some user ->
  let calls' := activeCalls (st (on_disconnect socket_id s)) in
  Map_has (userId user) calls' = false /\
  (forall k r, In (k, r) calls' -> (with_ r === userId user) = false) /\
  (forall k r, In (k, r) calls' -> In (k, r) (activeCalls s)).
Proof.
  intros F calls'. subst calls'.
  rewrite (on_disconnect_found _ _ _ F). simpl.
  set (calls := Map_delete (userId user) (activeCalls s)).
  split; [|split].
  - destruct (Map_has (userId user) (purge (userId user) calls calls)) eqn:E;
      [|reflexivity].
    apply Map_has_In in E. destruct E as [r Hin].
    apply purge_In in Hin. destruct Hin as [Hin _].
    apply Map_delete_In in Hin. now destruct Hin.
  - intros k r Hin. destruct (with_ r === userId user) eqn:E; [|reflexivity].
    apply purge_In in Hin. destruct Hin as [Hin Hall].
    now elim (Hall k r Hin E).
  - intros k r Hin. apply purge_In in Hin. destruct Hin as [Hin _].
    apply Map_delete_In in Hin. now destruct Hin.
Qed.

(** ** Joins (index.js:76-97) *)

Lemma find_snoc {A} (p : A -> bool) (l : list A) (a : A) :
  find p (l ++ [a]) =
  match find p l with
  | Some b => Some b
  | None => if p a then Some a else None
  end.
Proof.
  induction l as [|b l IH]; simpl; [reflexivity|].
  destruct (p b); [reflexivity | exact IH].
Qed.

Section JoinStep.

Variable socket_id : string.
Variable id : value.
Hypothesis id_truthy : truthy id = true.

Lemma update_first_userId (users : list user_entry) :
  map userId
    (update_first (fun u => userId u === id) (set_socketId socket_id) users) =
  map userId users.
Proof.
  induction users as [|u users IH]; simpl; [reflexivity|].
  destruct (userId u === id); simpl; [reflexivity | now rewrite IH].
Qed.

Lemma update_first_name (users : list user_entry) :
  map name
    (update_first (fun u => userId u === id) (set_socketId socket_id) users) =
  map name users.
Proof.
  induction users as [|u users IH]; simpl; [reflexivity|].
  destruct (userId u === id); simpl; [reflexivity | now rewrite IH].
Qed.

Lemma update_first_find (users : list user_entry) (e : user_entry) :
  find (fun u => userId u === id) users = Some e ->
  find (fun u => userId u === id)
    (update_first (fun u => userId u === id) (set_socketId socket_id) users) =
  Some (set_socketId socket_id e).
Proof.
  induction users as [|u users IH]; simpl; [discriminate|].
  destruct (userId u === id) eqn:E; simpl.
  - intros [= ->]. now rewrite E.
  - rewrite E. exact IH.
Qed.

Lemma update_first_other (id' : value) (users : list user_entry) :
  (id === id') = false ->
  socket_of id'
    (update_first (fun u => userId u === id) (set_socketId socket_id) users) =
  socket_of id' users.
Proof.
  intro Hne. unfold socket_of.
  induction users as [|u users IH]; simpl; [reflexivity|].
  destruct (userId u === id) eqn:E; simpl.
  - apply strict_eq_truthy in E; [|assumption].
    rewrite E, Hne. reflexivity.
  - destruct (userId u === id'); [reflexivity | exact IH].
Qed.

Lemma socket_of_join (nm id' : value) (users : list user_entry) :
  socket_of id' (join_registry socket_id id nm users) =
  if id === id' then Some socket_id else socket_of id' users.
Proof.
  unfold join_registry.
  destruct (id === id') eqn:E.
  - apply strict_eq_spec in E. destruct E as [<- _].
    destruct (find (fun u => userId u === id) users) as [e|] eqn:F.
    + unfold socket_of. now rewrite (update_first_find _ _ F).
    + unfold socket_of. rewrite find_snoc, F. simpl.
      now rewrite (strict_eq_refl_truthy _ id_truthy).
  - destruct (find (fun u => userId u === id) users) as [e|] eqn:F.
    + now apply update_first_other.
    + unfold socket_of. rewrite find_snoc. simpl. rewrite E.
      destruct (find (fun u => userId u === id') users); reflexivity.
Qed.

Lemma join_registry_NoDup (nm : value) (users : list user_entry) :
  NoDup (map userId users) ->
  NoDup (map userId (join_registry socket_id id nm users)).
Proof.
  intro ND. unfold join_registry.
  destruct (find (fun u => userId u === id) users) as [e|] eqn:F.
  - now rewrite update_first_userId.
  - rewrite map_app. simpl. apply NoDup_app; [assumption | | ].
    + constructor; [intros [] | constructor].
    + intros x Hx [<-|[]]. apply in_map_iff in Hx.
      destruct Hx as [u [Hu Hin]].
      pose proof (find_none _ _ F u Hin) as Hf. simpl in Hf.
      rewrite Hu, (strict_eq_refl_truthy _ id_truthy) in Hf. discriminate.
Qed.

Lemma join_registry_truthy (nm : value) (users : list user_entry) :
  Forall (fun v => truthy v = true) (map userId users) ->
  Forall (fun v => truthy v = true)
    (map userId (join_registry socket_id id nm users)).
Proof.
  intro T. unfold join_registry.
  destruct (find (fun u => userId u === id) users) as [e|] eqn:F.
  - now rewrite update_first_userId.
  - rewrite map_app. apply Forall_app. split; [assumption|].
    simpl. constructor; [assumption | constructor].
Qed.

End JoinStep.

Lemma on_join_registry_ok (socket_id : string) (user : payload) (s : state) :
  registry_ok (onlineUsers s) ->
  registry_ok (onlineUsers (st (on_join socket_id user s))).
Proof.
  intros [ND T]. destruct (join_id user) as [id|] eqn:J.
  - rewrite (on_join_passed _ _ _ _ J). simpl.
    apply join_id_Some in J. destruct J as (_ & _ & Tid).
    split; [now apply join_registry_NoDup | now apply join_registry_truthy].
  - rewrite (on_join_dropped _ _ _ J). simpl. now split.
Qed.

Lemma on_join_socket_of (socket_id : string) (user : payload) (id : value)
    (s : state) :
  socket_of id (onlineUsers (st (on_join socket_id user s))) =
  latest_join_from (socket_of id (onlineUsers s)) id [(socket_id, user)].
Proof.
  unfold latest_join_from. simpl.
  destruct (join_id user) as [id'|] eqn:J.
  - rewrite (on_join_passed _ _ _ _ J). simpl.
    apply join_id_Some in J. destruct J as (_ & _ & Tid).
    now apply socket_of_join.
  - now rewrite (on_join_dropped _ _ _ J).
Qed.

Lemma run_joins_registry_ok (joins : list (string * payload)) :
  forall s, registry_ok (onlineUsers s) ->
            registry_ok (onlineUsers (run_joins joins s)).
Proof.
  induction joins as [|[sid user] joins IH]; intros s H; simpl.
  - assumption.
  - apply IH. now apply on_join_registry_ok.
Qed.

Lemma run_joins_socket_of (id : value) (joins : list (string * payload)) :
  forall s,
  socket_of id (onlineUsers (run_joins joins s)) =
  latest_join_from (socket_of id (onlineUsers s)) id joins.
Proof.
  induction joins as [|[sid user] joins IH]; intro s; simpl.
  - reflexivity.
  - unfold run_joins in IH. rewrite IH. simpl.
    rewrite on_join_socket_of. reflexivity.
Qed.

Lemma registry_ok_find (users : list user_entry) (u : user_entry) :
  registry_ok users -> In u users ->
  find (fun u' => userId u' === userId u) users = Some u.
Proof.
  intros [ND T]. induction users as [|h users IH]; intro Hin; [destruct Hin|].
  simpl in ND, T. inversion ND as [|? ? Hnotin ND']. subst.
  inversion T as [|? ? Th T']. subst. simpl.
  destruct Hin as [->|Hin].
  - now rewrite (strict_eq_refl_truthy _ Th).
  - destruct (userId h === userId u) eqn:E.
    + apply strict_eq_spec in E. destruct E as [E _].
      elim Hnotin. rewrite E. now apply in_map.
    + now apply IH.
Qed.

(** C2: after any run of [join] events from the empty array, no two
    elements of [onlineUsers] have the same [userId]; every element holds
    the socket of the latest join made with its id; and every id that
    joined has an element. *)
Theorem joins_one_entry_latest_socket (joins : list (string * payload)) :
  let users := onlineUsers (run_joins joins initial) in
  NoDup (map userId users) /\
  (forall u, In u users -> latest_join (userId u) joins = Some (socketId u)) /\
  (forall id sid, latest_join id joins = Some sid ->
     exists u, In u users /\ userId u = id /\ socketId u = sid).
Proof.
  intro users.
  assert (OK : registry_ok users).
  { apply run_joins_registry_ok. split; constructor. }
  assert (S : forall id, socket_of id users = latest_join id joins).
  { intro id. unfold users. now rewrite run_joins_socket_of. }
  split; [exact (proj1 OK)|]. split.
  - intros u Hin. rewrite <- S. unfold socket_of.
    now rewrite (registry_ok_find _ _ OK Hin).
  - intros id sid L. rewrite <- S in L. unfold socket_of in L.
    destruct (find (fun u => userId u === id) users) as [u|] eqn:F;
      [|discriminate].
    apply find_some in F. destruct F as [Hin E].
    apply strict_eq_spec in E. destruct E as [E _].
    exists u. simpl in L. injection L as L. auto.
Qed.

Lemma joins_one_entry_latest_socket_witness :
  onlineUsers (run_joins sample_joins initial) =
    [{| userId := VStr "u1"; name := VStr "Alice"; socketId := "s4" |}; bob] /\
  latest_join (VStr "u1") sample_joins = Some "s4" /\
  NoDup (map userId (onlineUsers (run_joins sample_joins initial))).
Proof.
  split; [reflexivity|]. split; [reflexivity|].
  exact (proj1 (joins_one_entry_latest_socket sample_joins)).
Defined.

(** ** The registry invariant along any run *)

Lemma filter_userIds_incl (p : user_entry -> bool) (users : list user_entry) :
  incl (map userId (filter p users)) (map userId users).
Proof.
  intros id Hin. apply in_map_iff in Hin. destruct Hin as [u [<- Hu]].
  apply filter_In in Hu. apply in_map. exact (proj1 Hu).
Qed.

(** Dropping elements of the array keeps the invariant. *)
Lemma registry_ok_filter (p : user_entry -> bool) (users : list user_entry) :
  registry_ok users -> registry_ok (filter p users).
Proof.
  unfold registry_ok. induction users as [|u users IH]; simpl; [tauto|].
  intros [ND T].
  apply NoDup_cons_iff in ND. destruct ND as [Hfresh ND].
  apply Forall_cons_iff in T. destruct T as [Tu T].
  destruct (IH (conj ND T)) as [ND' T'].
  destruct (p u); simpl; [|now split].
  split.
  - apply NoDup_cons; [|exact ND'].
    intro Hin. apply Hfresh. now apply (filter_userIds_incl p users).
  - now apply Forall_cons.
Qed.

Lemma calls_keep_onlineUsers (socket_id : string) (data : payload) (s : state) :
  onlineUsers (st (on_answeredCall socket_id data s)) = onlineUsers s /\
  onlineUsers (st (on_reject_call socket_id data s)) = onlineUsers s /\
  onlineUsers (st (on_call_ended socket_id data s)) = onlineUsers s.
Proof.
  unfold on_answeredCall, on_reject_call, on_call_ended, bind, prop.
  destruct data as [[]|]; simpl; repeat split; reflexivity.
Qed.

Lemma handle_registry_ok (socket_id : string) (e : event) (s : state) :
  registry_ok (onlineUsers s) ->
  registry_ok (onlineUsers (st (handle socket_id e s))).
Proof.
  intro OK. destruct e as [user|data|data|data|data|]; simpl.
  - now apply on_join_registry_ok.
  - now rewrite on_callToUser_st.
  - now rewrite (proj1 (calls_keep_onlineUsers socket_id data s)).
  - now rewrite (proj1 (proj2 (calls_keep_onlineUsers socket_id data s))).
  - now rewrite (proj2 (proj2 (calls_keep_onlineUsers socket_id data s))).
  - rewrite (proj1 (on_disconnect_out socket_id s)).
    now apply registry_ok_filter.
Qed.

Lemma run_registry_ok (events : list (string * event)) :
  forall s, registry_ok (onlineUsers s) ->
            registry_ok (onlineUsers (run events s)).
Proof.
  induction events as [|[sid e] events IH]; intros s OK; simpl.
  - assumption.
  - apply IH. now apply handle_registry_ok.
Qed.

(** C3: the code breaks the claim where a socket has joined under two
    ids.  Socket "s1" joins as "u1" and then as "u2", and "u3" is in a call
    with "u2".  When "s1" disconnects, [find] (index.js:167) resolves "u1"
    alone and only the calls of "u1" are purged, while [filter]
    (index.js:178) drops both elements: "u2" is gone from [onlineUsers],
    yet the entry of "u3" still names "u2" in its [with] and "u3" stays
    busy. *)
Theorem disconnect_second_identity_keeps_calls :
  onlineUsers (run two_ids_one_socket initial) =
    [{| userId := VStr "u1"; name := VStr "Alice"; socketId := "s1" |};
     {| userId := VStr "u2"; name := VStr "Bob"; socketId := "s1" |}] /\
  find (fun u => socketId u =? "s1") (onlineUsers (run two_ids_one_socket initial)) =
    Some {| userId := VStr "u1"; name := VStr "Alice"; socketId := "s1" |} /\
  onlineUsers (st (on_disconnect "s1" (run two_ids_one_socket initial))) = [] /\
  activeCalls (st (on_disconnect "s1" (run two_ids_one_socket initial))) =
    [(VStr "u3", {| with_ := VStr "u2"; call_socketId := VStr "s3" |});
     (VStr "u2", {| with_ := VStr "u3"; call_socketId := VStr "u2" |})] /\
  isBusy (VStr "u3") (st (on_disconnect "s1" (run two_ids_one_socket initial))) = true.
Proof.
  repeat split; reflexivity.
Qed.

(** C4, as the code has it: a join whose id already has an element in
    [onlineUsers] overwrites that element's [socketId] and nothing else:
    its [name] stays what it was, every [userId] and every [name] of the
    array is as before, and the array has the same length. *)
Theorem rejoin_overwrites_socket_only (socket_id : string) (user : payload)
    (id : value) (e : user_entry) (s : state) :
  join_id user = Some id ->
  find (fun u => userId u === id) (onlineUsers s) = Some e ->
  let users' := onlineUsers (st (on_join socket_id user s)) in
  find (fun u => userId u === id) users' =
    Some {| userId := userId e; name := name e; socketId := socket_id |} /\
  map userId users' = map userId (onlineUsers s) /\
  map name users' = map name (onlineUsers s) /\
  List.length users' = List.length (onlineUsers s).
Proof.
  intros J F users'. subst users'.
  rewrite (on_join_passed _ _ _ _ J). simpl.
  unfold join_registry. rewrite F.
  split; [now apply update_first_find|].
  split; [apply update_first_userId|].
  split; [apply update_first_name|].
  rewrite <- (length_map userId), update_first_userId. apply length_map.
Qed.

Lemma rejoin_overwrites_socket_only_witness :
  join_id rejoin_as_alicia = Some (VStr "u1") /\
  find (fun u => userId u === VStr "u1")
    (onlineUsers (st (on_join "s9" rejoin_as_alicia two_online))) =
  Some {| userId := VStr "u1"; name := VStr "Alice"; socketId := "s9" |}.
Proof.
  split; [reflexivity|].
  exact (proj1 (rejoin_overwrites_socket_only "s9" rejoin_as_alicia (VStr "u1")
                  alice two_online eq_refl eq_refl)).
Defined.

(** C4 as stated fails: Alice is online under the name "Alice"; a join
    with her id and the name "Alicia" leaves her element named "Alice",
    where the specification's [join] would have renamed it. *)
Lemma rejoin_keeps_old_name :
  onlineUsers (st (on_join "s9" rejoin_as_alicia two_online)) =
    [{| userId := VStr "u1"; name := VStr "Alice"; socketId := "s9" |}; bob] /\
  join_spec "s9" (VStr "u1") (VStr "Alicia") (onlineUsers two_online) =
    [{| userId := VStr "u1"; name := VStr "Alicia"; socketId := "s9" |}; bob] /\
  onlineUsers (st (on_join "s9" rejoin_as_alicia two_online)) <>
    join_spec "s9" (VStr "u1") (VStr "Alicia") (onlineUsers two_online).
Proof.
  split; [reflexivity|]. split; [reflexivity|]. discriminate.
Qed.

(** ** Validation *)




(** ** The [online-users] broadcast *)

Lemma field_none_all (p : payload) (k k' : string) :
  field p k = None -> field p k' = None.
Proof. destruct p as [[]|]; simpl; intro H; try discriminate; reflexivity. Qed.

Lemma no_broadcast_callToUser (socket_id : string) (data : payload) (s : state) :
  online_users_broadcasts (out (on_callToUser socket_id data s)) = [].
Proof.
  destruct (field data "callToUserId") as [id|] eqn:F.
  - destruct (find (fun u => userId u === id) (onlineUsers s)) as [callee|] eqn:N.
    + destruct (Map_has id (activeCalls s)) eqn:B.
      * now rewrite (on_callToUser_busy _ _ _ _ _ F N B).
      * now rewrite (on_callToUser_free _ _ _ _ _ F N B).
    + now rewrite (on_callToUser_absent _ _ _ _ F N).
  - rewrite (on_callToUser_nullish _ _ _ F). now destruct (onlineUsers s).
Qed.

Lemma no_broadcast_calls (socket_id : string) (data : payload) (s : state) :
  online_users_broadcasts (out (on_answeredCall socket_id data s)) = [] /\
  online_users_broadcasts (out (on_reject_call socket_id data s)) = [] /\
  online_users_broadcasts (out (on_call_ended socket_id data s)) = [].
Proof.
  unfold on_answeredCall, on_reject_call, on_call_ended, bind, prop.
  destruct data as [[]|]; simpl; repeat split; reflexivity.
Qed.

(** C8: whatever the event, an [online-users] emission in the handler's
    output goes to everyone and carries the array [onlineUsers] as the
    handler leaves it.  A disconnect emits exactly one, and the array it
    carries has no element with the socket's id; a join that passes the
    guard emits exactly one, and the array it carries has an element with
    the joined id and the joining socket. *)
Theorem online_users_broadcast_is_registry (socket_id : string) (e : event)
    (s : state) :
  let o := handle socket_id e s in
  (forall t m, In (t, m) (online_users_broadcasts (out o)) ->
     t = ToAll /\ m = MUsers (onlineUsers (st o))) /\
  (e = Disconnect ->
     online_users_broadcasts (out o) = [(ToAll, MUsers (onlineUsers (st o)))] /\
     forall u, In u (onlineUsers (st o)) -> socketId u <> socket_id) /\
  (forall user id, e = Join user -> join_id user = Some id ->
     online_users_broadcasts (out o) = [(ToAll, MUsers (onlineUsers (st o)))] /\
     exists u, In u (onlineUsers (st o)) /\ userId u = id /\
               socketId u = socket_id).
Proof.
  intro o. subst o. destruct e as [user|data|data|data|data|]; simpl.
  - split; [|split; [discriminate|]].
    + intros t m. destruct (join_id user) as [id|] eqn:J.
      * rewrite (on_join_passed _ _ _ _ J). simpl.
        intros [[= <- <-]|[]]. split; reflexivity.
      * rewrite (on_join_dropped _ _ _ J). intros [].
    + intros user' id [= <-] J. rewrite (on_join_passed _ _ _ _ J). simpl.
      split; [reflexivity|].
      apply join_id_Some in J. destruct J as (_ & _ & T).
      pose proof (socket_of_join socket_id id T (get user "name") id
                    (onlineUsers s)) as S.
      rewrite (strict_eq_refl_truthy _ T) in S. unfold socket_of in S.
      destruct (find (fun u => userId u === id)
                  (join_registry socket_id id (get user "name") (onlineUsers s)))
        as [u|] eqn:F; [|discriminate].
      apply find_some in F. destruct F as [Hin E].
      apply strict_eq_spec in E. destruct E as [E _].
      exists u. simpl in S. injection S as S. auto.
  - rewrite no_broadcast_callToUser.
    split; [intros t m [] | split; discriminate].
  - rewrite (proj1 (no_broadcast_calls socket_id data s)).
    split; [intros t m [] | split; discriminate].
  - rewrite (proj1 (proj2 (no_broadcast_calls socket_id data s))).
    split; [intros t m [] | split; discriminate].
  - rewrite (proj2 (proj2 (no_broadcast_calls socket_id data s))).
    split; [intros t m [] | split; discriminate].
  - destruct (on_disconnect_out socket_id s) as [U O]. rewrite O. simpl.
    split; [|split; [|discriminate]].
    + intros t m [[= <- <-]|[]]. split; reflexivity.
    + intros _. split; [reflexivity|].
      intros u Hin. rewrite U in Hin. apply filter_In in Hin.
      destruct Hin as [_ Hne]. apply negb_true_iff in Hne.
      now apply String.eqb_neq.
Qed.

Lemma online_users_broadcast_is_registry_witness :
  online_users_broadcasts (out (handle "s1" Disconnect in_call)) =
    [(ToAll, MUsers [bob])] /\
  onlineUsers (st (handle "s1" Disconnect in_call)) = [bob] /\
  online_users_broadcasts (out (handle "s1" Disconnect in_call)) =
    [(ToAll, MUsers (onlineUsers (st (handle "s1" Disconnect in_call))))].
Proof.
  split; [reflexivity|]. split; [reflexivity|].
  exact (proj1 (proj1 (proj2
    (online_users_broadcast_is_registry "s1" Disconnect in_call)) eq_refl)).
Defined.

(** ** Accepting and ending a call (index.js:135-144, 155-163) *)

Lemma field_is_get (p : payload) (k : string) (v : value) :
  field p k = Some v -> get p k = v.
Proof. unfold get. now intros ->. Qed.

(** C1, as the code has it: after [answeredCall] with [from = caller] and
    [to = callee], both ids are keys of [activeCalls]; a [call-ended] event
    whose own [from] and [to] are that caller and callee leaves neither as
    a key.  The handler never reads a record: on any event it deletes the
    key given as [from] and the key given as [to]. *)
Theorem accept_then_end_clears_both (socket_id socket_id' : string)
    (accept ended : payload) (caller callee : value) (s : state) :
  field accept "from" = Some caller ->
  field accept "to" = Some callee ->
  field ended "from" = Some caller ->
  field ended "to" = Some callee ->
  let s1 := st (on_answeredCall socket_id accept s) in
  let s2 := st (on_call_ended socket_id' ended s1) in
  isBusy caller s1 = true /\ isBusy callee s1 = true /\
  isBusy caller s2 = false /\ isBusy callee s2 = false /\
  forall sid data v s',
    field data "to" = Some v ->
    activeCalls (st (on_call_ended sid data s')) =
    Map_delete (get data "to") (Map_delete (get data "from") (activeCalls s')).
Proof.
  intros AF AT EF ET s1 s2. subst s2 s1.
  rewrite (on_call_ended_eq _ _ _ _ ET).
  rewrite (on_answeredCall_eq _ _ _ _ AT).
  rewrite (field_is_get _ _ _ AF), (field_is_get _ _ _ AT),
    (field_is_get _ _ _ EF), (field_is_get _ _ _ ET).
  unfold isBusy. simpl.
  split; [apply Map_has_set_mono, Map_has_set_same|].
  split; [apply Map_has_set_same|].
  split; [apply Map_has_delete_false, Map_has_delete_same|].
  split; [apply Map_has_delete_same|].
  intros sid data v s' F. now rewrite (on_call_ended_eq _ _ _ _ F).
Qed.

Lemma accept_then_end_clears_both_witness :
  st (on_answeredCall "s1" accept_u1_u2 two_online) = in_call /\
  activeCalls (st (on_call_ended "s1" end_u1_u2 in_call)) = [] /\
  isBusy (VStr "u1")
    (st (on_answeredCall "s1" accept_u1_u2 two_online)) = true.
Proof.
  split; [reflexivity|]. split; [reflexivity|].
  exact (proj1 (accept_then_end_clears_both "s1" "s1" accept_u1_u2 end_u1_u2
                  (VStr "u1") (VStr "u2") two_online
                  eq_refl eq_refl eq_refl eq_refl)).
Defined.

(** C1 as stated fails: with "u1" and "u2" in a call, a [call-ended] event
    of the caller "u1" that names "u3" as its target leaves "u2" busy,
    where the specification's [endCall("u1")] would have found the peer
    "u2" in the record and emptied the ledger. *)
Lemma end_by_caller_leaves_callee_busy :
  st (on_answeredCall "s1" accept_u1_u2 two_online) = in_call /\
  get end_u1_u3 "from" = VStr "u1" /\
  isBusy (VStr "u2") (st (on_call_ended "s1" end_u1_u3 in_call)) = true /\
  endCall_spec (VStr "u1") (activeCalls in_call) = [] /\
  activeCalls (st (on_call_ended "s1" end_u1_u3 in_call)) <>
    endCall_spec (VStr "u1") (activeCalls in_call).
Proof.
  repeat split; try reflexivity. discriminate.
Qed.

(** * Further properties of the handlers *)

(** ** [Map]: lookup after [set] and [delete] *)

Lemma Map_get_set_same (k : value) (r : call_record) (m : jsmap) :
  Map_get k (Map_set k r m) = Some r.
Proof.
  induction m as [|[k' r'] m IH]; simpl.
  - now rewrite same_value_zero_refl.
  - destruct (same_value_zero k' k) eqn:E; simpl; rewrite E; [reflexivity | exact IH].
Qed.

Lemma Map_get_set_other (k k' : value) (r : call_record) (m : jsmap) :
  k <> k' -> Map_get k (Map_set k' r m) = Map_get k m.
Proof.
  intro Hne.
  assert (N : same_value_zero k' k = false).
  { destruct (same_value_zero k' k) eqn:E; [|reflexivity].
    apply same_value_zero_spec in E. now elim Hne. }
  induction m as [|[k0 r0] m IH]; simpl.
  - now rewrite N.
  - destruct (same_value_zero k0 k') eqn:E; simpl.
    + apply same_value_zero_spec in E. subst k0. now rewrite N.
    + destruct (same_value_zero k0 k); [reflexivity | exact IH].
Qed.

Lemma Map_get_delete_same (k : value) (m : jsmap) :
  Map_get k (Map_delete k m) = None.
Proof.
  induction m as [|[k' r'] m IH]; simpl; [reflexivity|].
  destruct (same_value_zero k' k) eqn:E; simpl; [exact IH|].
  now rewrite E.
Qed.

Lemma Map_get_delete_other (k k' : value) (m : jsmap) :
  k <> k' -> Map_get k (Map_delete k' m) = Map_get k m.
Proof.
  intro Hne. induction m as [|[k0 r0] m IH]; simpl; [reflexivity|].
  destruct (same_value_zero k0 k') eqn:E; simpl.
  - apply same_value_zero_spec in E. subst k0.
    destruct (same_value_zero k' k) eqn:E'; [|exact IH].
    apply same_value_zero_spec in E'. now elim Hne.
  - destruct (same_value_zero k0 k); [reflexivity | exact IH].
Qed.

Lemma Map_has_get (k : value) (m : jsmap) :
  Map_has k m = match Map_get k m with Some _ => true | None => false end.
Proof.
  unfold Map_has. induction m as [|[k' r'] m IH]; simpl; [reflexivity|].
  destruct (same_value_zero k' k); [reflexivity | exact IH].
Qed.

Lemma Map_delete_absent (k : value) (m : jsmap) :
  Map_has k m = false -> Map_delete k m = m.
Proof.
  unfold Map_has, Map_delete. induction m as [|e m IH]; simpl; [reflexivity|].
  destruct (same_value_zero (fst e) k); simpl; [discriminate|].
  intro H. now rewrite IH.
Qed.

Lemma Map_delete_comm (a b : value) (m : jsmap) :
  Map_delete a (Map_delete b m) = Map_delete b (Map_delete a m).
Proof.
  unfold Map_delete. induction m as [|e m IH]; simpl; [reflexivity|].
  destruct (same_value_zero (fst e) a) eqn:A,
           (same_value_zero (fst e) b) eqn:B; simpl;
    rewrite ?A, ?B; simpl; now rewrite IH.
Qed.

Lemma Map_set_get_id (k : value) (r : call_record) (m : jsmap) :
  Map_get k m = Some r -> Map_set k r m = m.
Proof.
  induction m as [|[k' r'] m IH]; simpl; [discriminate|].
  destruct (same_value_zero k' k).
  - now intros [= ->].
  - intro H. now rewrite IH.
Qed.

Lemma Map_set_set (k : value) (r r' : call_record) (m : jsmap) :
  Map_set k r (Map_set k r' m) = Map_set k r m.
Proof.
  induction m as [|[k0 r0] m IH]; simpl.
  - now rewrite same_value_zero_refl.
  - destruct (same_value_zero k0 k) eqn:E; simpl; rewrite E;
      [reflexivity | now rewrite IH].
Qed.

(** ** More on accepting and ending a call *)

Lemma on_answeredCall_throws (socket_id : string) (data : payload) (s : state) :
  field data "to" = None ->
  on_answeredCall socket_id data s = mkOutcome (Throw "TypeError") s [].
Proof.
  intro F. unfold on_answeredCall, bind, prop. now rewrite F.
Qed.

Lemma on_call_ended_throws (socket_id : string) (data : payload) (s : state) :
  field data "to" = None ->
  on_call_ended socket_id data s = mkOutcome (Throw "TypeError") s [].
Proof.
  intro F. unfold on_call_ended, bind, prop. now rewrite F.
Qed.

(** X1: lookup after an accept.  The entry under [to] names [from] as its
    peer and holds [to] itself in its [socketId] field; when [from] and
    [to] differ, the entry under [from] names [to] and holds the accepting
    socket; every other key reads as before. *)
Theorem answeredCall_records (socket_id : string) (accept : payload)
    (from to : value) (s : state) :
  field accept "from" = Some from ->
  field accept "to" = Some to ->
  let calls' := activeCalls (st (on_answeredCall socket_id accept s)) in
  Map_get to calls' = Some {| with_ := from; call_socketId := to |} /\
  (from <> to ->
     Map_get from calls' =
       Some {| with_ := to; call_socketId := VStr socket_id |}) /\
  (forall k, k <> from -> k <> to -> Map_get k calls' = Map_get k (activeCalls s)).
Proof.
  intros FF FT calls'. subst calls'.
  rewrite (on_answeredCall_eq _ _ _ _ FT).
  rewrite (field_is_get _ _ _ FF), (field_is_get _ _ _ FT). simpl.
  split; [apply Map_get_set_same|]. split.
  - intro Hne. rewrite Map_get_set_other by assumption. apply Map_get_set_same.
  - intros k H1 H2. now rewrite !Map_get_set_other.
Qed.

Lemma answeredCall_records_witness :
  Map_get (VStr "u2")
    (activeCalls (st (on_answeredCall "s1" accept_u1_u2 two_online))) =
  Some {| with_ := VStr "u1"; call_socketId := VStr "u2" |}.
Proof.
  exact (proj1 (answeredCall_records "s1" accept_u1_u2 (VStr "u1") (VStr "u2")
                  two_online eq_refl eq_refl)).
Defined.

Lemma accept_twice_calls (from to : value) (r1 r2 : call_record) (m : jsmap) :
  let m1 := Map_set to r2 (Map_set from r1 m) in
  Map_set to r2 (Map_set from r1 m1) = m1.
Proof.
  intro m1. subst m1.
  destruct (same_value_zero from to) eqn:E.
  - apply same_value_zero_spec in E. subst to. now rewrite !Map_set_set.
  - assert (Hne : from <> to).
    { intros ->. now rewrite same_value_zero_refl in E. }
    rewrite (Map_set_get_id from r1).
    + apply Map_set_get_id, Map_get_set_same.
    + rewrite Map_get_set_other by assumption. apply Map_get_set_same.
Qed.

(** X2: an accept repeated on the same socket with the same payload leaves
    the state the first one produced: the two entries are overwritten with
    what they already hold. *)
Theorem answeredCall_idempotent (socket_id : string) (accept : payload) (s : state) :
  st (on_answeredCall socket_id accept (st (on_answeredCall socket_id accept s))) =
  st (on_answeredCall socket_id accept s).
Proof.
  destruct (field accept "to") as [v|] eqn:F.
  - rewrite !(on_answeredCall_eq _ _ _ _ F). simpl.
    now rewrite accept_twice_calls.
  - now rewrite !(on_answeredCall_throws _ _ _ F).
Qed.

(** X3: ending a call between two ids that have no entry in [activeCalls]
    changes nothing in the state; [callEnded] is emitted all the same. *)
Theorem call_ended_without_records (socket_id : string) (ended : payload)
    (from to : value) (s : state) :
  field ended "from" = Some from ->
  field ended "to" = Some to ->
  isBusy from s = false ->
  isBusy to s = false ->
  on_call_ended socket_id ended s =
  mkOutcome (Normal tt) s
    [Emit (ToRoom to) "callEnded" (MObj [("name", get ended "name")])].
Proof.
  unfold isBusy. intros FF FT BF BT.
  rewrite (on_call_ended_eq _ _ _ _ FT).
  rewrite (field_is_get _ _ _ FF), (field_is_get _ _ _ FT).
  rewrite (Map_delete_absent _ _ BF), (Map_delete_absent _ _ BT).
  destruct s; reflexivity.
Qed.

Lemma call_ended_without_records_witness :
  on_call_ended "s1" end_u1_u2 two_online =
  mkOutcome (Normal tt) two_online
    [Emit (ToRoom (VStr "u2")) "callEnded" (MObj [("name", VStr "Alice")])].
Proof.
  exact (call_ended_without_records "s1" end_u1_u2 (VStr "u1") (VStr "u2")
           two_online eq_refl eq_refl eq_refl eq_refl).
Defined.

(** X4: for the table of calls it does not matter which side ends the
    call: an end event with [from] and [to] exchanged leaves the same
    [activeCalls], and an end event repeated leaves what the first one
    left. *)
Theorem call_ended_either_side (sid sid' : string) (ended ended' : payload)
    (a b : value) (s : state) :
  field ended "from" = Some a -> field ended "to" = Some b ->
  field ended' "from" = Some b -> field ended' "to" = Some a ->
  activeCalls (st (on_call_ended sid ended s)) =
    activeCalls (st (on_call_ended sid' ended' s)) /\
  st (on_call_ended sid ended (st (on_call_ended sid ended s))) =
    st (on_call_ended sid ended s).
Proof.
  intros F1 T1 F2 T2.
  rewrite !(on_call_ended_eq _ _ _ _ T1), (on_call_ended_eq _ _ _ _ T2).
  rewrite (field_is_get _ _ _ F1), (field_is_get _ _ _ T1),
    (field_is_get _ _ _ F2), (field_is_get _ _ _ T2). simpl.
  split; [apply Map_delete_comm|]. f_equal.
  rewrite (Map_delete_absent a).
  - apply Map_delete_absent, Map_has_delete_same.
  - apply Map_has_delete_false, Map_has_delete_same.
Qed.

Lemma call_ended_either_side_witness :
  activeCalls (st (on_call_ended "s1" end_u1_u2 in_call)) =
  activeCalls (st (on_call_ended "s2"
    (PObj [("to", VStr "u1"); ("name", VStr "Bob"); ("from", VStr "u2")]) in_call)).
Proof.
  exact (proj1 (call_ended_either_side "s1" "s2" end_u1_u2
    (PObj [("to", VStr "u1"); ("name", VStr "Bob"); ("from", VStr "u2")])
    (VStr "u1") (VStr "u2") in_call eq_refl eq_refl eq_refl eq_refl)).
Defined.

(** X5: an end event touches no entry but those under its own [from] and
    [to]: every other key reads as before. *)
Theorem call_ended_other_keys (socket_id : string) (ended : payload)
    (from to k : value) (s : state) :
  field ended "from" = Some from ->
  field ended "to" = Some to ->
  k <> from -> k <> to ->
  Map_get k (activeCalls (st (on_call_ended socket_id ended s))) =
  Map_get k (activeCalls s).
Proof.
  intros FF FT H1 H2. rewrite (on_call_ended_eq _ _ _ _ FT).
  rewrite (field_is_get _ _ _ FF), (field_is_get _ _ _ FT). simpl.
  now rewrite !Map_get_delete_other.
Qed.

Lemma call_ended_other_keys_witness :
  Map_get (VStr "u2") (activeCalls (st (on_call_ended "s1" end_u1_u3 in_call))) =
  Map_get (VStr "u2") (activeCalls in_call).
Proof.
  apply (call_ended_other_keys "s1" end_u1_u3 (VStr "u1") (VStr "u3"));
    (reflexivity || discriminate).
Defined.

(** ** What each handler can change, and when it throws *)

Lemma on_reject_call_eq (socket_id : string) (data : payload) (s : state) :
  on_reject_call socket_id data s =
  if nullish data then mkOutcome (Throw "TypeError") s []
  else mkOutcome (Normal tt) s
         [Emit (ToRoom (get data "to")) "callRejected"
            (MObj [("name", get data "name");
                   ("profilepic", get data "profilepic")])].
Proof.
  unfold on_reject_call, bind, prop, get.
  destruct data as [[]|]; reflexivity.
Qed.


Lemma on_join_activeCalls (socket_id : string) (user : payload) (s : state) :
  activeCalls (st (on_join socket_id user s)) = activeCalls s /\
  res (on_join socket_id user s) = Normal tt.
Proof.
  destruct (join_id user) as [id|] eqn:J.
  - rewrite (on_join_passed _ _ _ _ J). split; reflexivity.
  - rewrite (on_join_dropped _ _ _ J). split; reflexivity.
Qed.

Lemma handle_writes (socket_id : string) (e : event) (s : state) :
  let s' := st (handle socket_id e s) in
  match e with
  | Join _ => activeCalls s' = activeCalls s
  | CallToUser _ | RejectCall _ => s' = s
  | AnsweredCall _ | CallEnded _ => onlineUsers s' = onlineUsers s
  | Disconnect => True
  end.
Proof.
  destruct e as [user|data|data|data|data|]; simpl.
  - apply on_join_activeCalls.
  - now rewrite on_callToUser_st.
  - apply calls_keep_onlineUsers.
  - rewrite on_reject_call_eq. now destruct (nullish data).
  - apply calls_keep_onlineUsers.
  - exact I.
Qed.

(** X6: the array [onlineUsers] is written by [join] and [disconnect] only,
    and the table [activeCalls] by [answeredCall], [call-ended] and
    [disconnect] only: a call request and a rejection change neither, a
    join leaves the calls alone, an accept and an end leave the array
    alone. *)
Theorem handlers_frame (socket_id : string) (e : event) (s : state) :
  let s' := st (handle socket_id e s) in
  match e with
  | Join _ => activeCalls s' = activeCalls s
  | CallToUser _ | RejectCall _ => s' = s
  | AnsweredCall _ | CallEnded _ => onlineUsers s' = onlineUsers s
  | Disconnect => True
  end.
Proof.
  exact (handle_writes socket_id e s).
Qed.


(** X8: a call request to a callee who is in [onlineUsers] and is not a key
    of [activeCalls] is forwarded: its whole output is one [callToUser],
    with the request's [signalData] under [signal] and its [from], [name],
    [email] and [profilepic], addressed to the socket id held by the
    callee's element; the requester is sent nothing and the state is
    untouched. *)
Theorem callToUser_free_callee (socket_id : string) (data : payload)
    (id : value) (callee : user_entry) (s : state) :
  field data "callToUserId" = Some id ->
  find (fun u => userId u === id) (onlineUsers s) = Some callee ->
  isBusy id s = false ->
  on_callToUser socket_id data s =
  mkOutcome (Normal tt) s
    [Emit (ToRoom (VStr (socketId callee))) "callToUser"
       (MObj [("signal", get data "signalData"); ("from", get data "from");
              ("name", get data "name"); ("email", get data "email");
              ("profilepic", get data "profilepic")])].
Proof.
  intros F N B. now apply on_callToUser_free with (id := id).
Qed.

Lemma callToUser_free_callee_witness :
  on_callToUser "s3" (call_request "u2") two_online =
  mkOutcome (Normal tt) two_online
    [Emit (ToRoom (VStr "s2")) "callToUser"
       (MObj [("signal", VStr "offer"); ("from", VStr "u3");
              ("name", VStr "Carol"); ("email", VStr "carol@example.org");
              ("profilepic", VStr "carol.png")])].
Proof.
  apply (callToUser_free_callee "s3" (call_request "u2") (VStr "u2") bob two_online);
    reflexivity.
Defined.

(** X9: once an accept has been handled, a call request to either of the
    two ids it named, if that id is in [onlineUsers], is answered with
    [userBusy] and announced to the callee with [incomingCallWhileBusy]. *)
Theorem accept_makes_busy (sid sid' : string) (accept data : payload)
    (v id : value) (callee : user_entry) (s : state) :
  field accept "to" = Some v ->
  id = get accept "from" \/ id = get accept "to" ->
  field data "callToUserId" = Some id ->
  find (fun u => userId u === id) (onlineUsers s) = Some callee ->
  let s1 := st (on_answeredCall sid accept s) in
  on_callToUser sid' data s1 =
  mkOutcome (Normal tt) s1
    [Emit (ToSocket sid') "userBusy"
       (MObj [("message", VStr "User is currently in another call.")]);
     Emit (ToRoom (VStr (socketId callee))) "incomingCallWhileBusy"
       (MObj [("from", get data "from"); ("name", get data "name");
              ("email", get data "email");
              ("profilepic", get data "profilepic")])].
Proof.
  intros FT Hid FD N s1. subst s1.
  rewrite (on_answeredCall_eq _ _ _ _ FT).
  apply on_callToUser_busy with (id := id); [assumption | exact N |]. simpl.
  destruct Hid as [-> | ->].
  - apply Map_has_set_mono, Map_has_set_same.
  - apply Map_has_set_same.
Qed.

Lemma accept_makes_busy_witness :
  res (on_callToUser "s3" (call_request "u2")
         (st (on_answeredCall "s1" accept_u1_u2 two_online))) = Normal tt /\
  out (on_callToUser "s3" (call_request "u2")
         (st (on_answeredCall "s1" accept_u1_u2 two_online))) =
    [Emit (ToSocket "s3") "userBusy"
       (MObj [("message", VStr "User is currently in another call.")]);
     Emit (ToRoom (VStr "s2")) "incomingCallWhileBusy"
       (MObj [("from", VStr "u3"); ("name", VStr "Carol");
              ("email", VStr "carol@example.org");
              ("profilepic", VStr "carol.png")])].
Proof.
  rewrite (accept_makes_busy "s1" "s3" accept_u1_u2 (call_request "u2")
             (VStr "u2") (VStr "u2") bob two_online eq_refl
             (or_intror eq_refl) eq_refl eq_refl).
  split; reflexivity.
Defined.

(** X10: once an end event has been handled, a call request to either of
    the two ids it named, if that id is in [onlineUsers], is forwarded to
    the callee, whatever [activeCalls] held before. *)
Theorem call_ended_makes_free (sid sid' : string) (ended data : payload)
    (v id : value) (callee : user_entry) (s : state) :
  field ended "to" = Some v ->
  id = get ended "from" \/ id = get ended "to" ->
  field data "callToUserId" = Some id ->
  find (fun u => userId u === id) (onlineUsers s) = Some callee ->
  let s2 := st (on_call_ended sid ended s) in
  on_callToUser sid' data s2 =
  mkOutcome (Normal tt) s2
    [Emit (ToRoom (VStr (socketId callee))) "callToUser"
       (MObj [("signal", get data "signalData"); ("from", get data "from");
              ("name", get data "name"); ("email", get data "email");
              ("profilepic", get data "profilepic")])].
Proof.
  intros FT Hid FD N s2. subst s2.
  rewrite (on_call_ended_eq _ _ _ _ FT).
  apply on_callToUser_free with (id := id); [assumption | exact N |]. simpl.
  destruct Hid as [-> | ->].
  - apply Map_has_delete_false, Map_has_delete_same.
  - apply Map_has_delete_same.
Qed.

Lemma call_ended_makes_free_witness :
  out (on_callToUser "s3" (call_request "u2")
         (st (on_call_ended "s1" end_u1_u2 in_call))) =
    [Emit (ToRoom (VStr "s2")) "callToUser"
       (MObj [("signal", VStr "offer"); ("from", VStr "u3");
              ("name", VStr "Carol"); ("email", VStr "carol@example.org");
              ("profilepic", VStr "carol.png")])].
Proof.
  rewrite (call_ended_makes_free "s1" "s3" end_u1_u2 (call_request "u2")
             (VStr "u2") (VStr "u2") bob in_call eq_refl
             (or_intror eq_refl) eq_refl eq_refl).
  reflexivity.
Defined.

(** ** Presence: joins and disconnects together *)

(** X11: along any run of events of any kind from the initial state, no two
    elements of [onlineUsers] have the same [userId], and every [userId]
    in it is truthy. *)
Theorem registry_distinct_along_run (events : list (string * event)) :
  NoDup (map userId (onlineUsers (run events initial))) /\
  Forall (fun id => truthy id = true)
    (map userId (onlineUsers (run events initial))).
Proof.
  apply (run_registry_ok events initial). split; constructor.
Qed.

Lemma update_first_same_socket (id : value) (sid : string)
    (users : list user_entry) (e : user_entry) :
  find (fun u => userId u === id) users = Some e ->
  socketId e = sid ->
  update_first (fun u => userId u === id) (set_socketId sid) users = users.
Proof.
  induction users as [|u users IH]; simpl; [discriminate|].
  destruct (userId u === id).
  - intros [= ->] <-. now destruct e.
  - intros F S. now rewrite (IH F S).
Qed.

Lemma join_registry_find (sid : string) (id nm : value) (users : list user_entry) :
  truthy id = true ->
  exists e, find (fun u => userId u === id) (join_registry sid id nm users) = Some e
            /\ socketId e = sid.
Proof.
  intro T. unfold join_registry.
  destruct (find (fun u => userId u === id) users) as [e|] eqn:F.
  - exists (set_socketId sid e). split; [now apply update_first_find | reflexivity].
  - exists {| userId := id; name := nm; socketId := sid |}.
    split; [|reflexivity].
    rewrite find_snoc, F. simpl. now rewrite (strict_eq_refl_truthy _ T).
Qed.

(** X12: a join repeated on the same socket with the same payload changes
    nothing the second time: the whole outcome of the second join, state
    and broadcast included, is that of the first. *)
Theorem join_idempotent (socket_id : string) (user : payload) (s : state) :
  on_join socket_id user (st (on_join socket_id user s)) =
  on_join socket_id user s.
Proof.
  destruct (join_id user) as [id|] eqn:J.
  - rewrite !(on_join_passed _ _ _ _ J). simpl.
    pose proof J as J'. apply join_id_Some in J'. destruct J' as (_ & _ & T).
    destruct (join_registry_find socket_id id (get user "name") (onlineUsers s) T)
      as [e [F S]].
    assert (E : join_registry socket_id id (get user "name")
                  (join_registry socket_id id (get user "name") (onlineUsers s)) =
                join_registry socket_id id (get user "name") (onlineUsers s)).
    { unfold join_registry at 1. rewrite F.
      now apply update_first_same_socket with (e := e). }
    now rewrite E.
  - now rewrite !(on_join_dropped _ _ _ J).
Qed.

(** X13: a socket that carries no element of [onlineUsers] joins under an id
    that has none either, then disconnects: the array is again what it
    was before the join. *)
Theorem join_then_disconnect (socket_id : string) (user : payload) (id : value)
    (s : state) :
  join_id user = Some id ->
  (forall u, In u (onlineUsers s) -> socketId u <> socket_id) ->
  (forall u, In u (onlineUsers s) -> (userId u === id) = false) ->
  onlineUsers (st (on_disconnect socket_id (st (on_join socket_id user s)))) =
  onlineUsers s.
Proof.
  intros J HS HI.
  rewrite (proj1 (on_disconnect_out _ _)), (on_join_passed _ _ _ _ J). simpl.
  unfold join_registry.
  rewrite (proj2 (find_none_iff _ _) HI), filter_app. simpl.
  rewrite String.eqb_refl. simpl. rewrite app_nil_r.
  apply find_none_filter, find_none_iff.
  intros u Hin. apply String.eqb_neq. now apply HS.
Qed.

Lemma join_then_disconnect_witness :
  onlineUsers
    (st (on_disconnect "s3"
           (st (on_join "s3" (PObj [("id", VStr "u3"); ("name", VStr "Carol")])
                  in_call)))) =
  onlineUsers in_call.
Proof.
  apply (join_then_disconnect "s3" (PObj [("id", VStr "u3"); ("name", VStr "Carol")])
           (VStr "u3") in_call); [reflexivity | |].
  - intros u [<-|[<-|[]]]; discriminate.
  - intros u [<-|[<-|[]]]; reflexivity.
Defined.

Lemma find_filter_kept {A} (p q : A -> bool) (l : list A) (a : A) :
  find p l = Some a -> q a = true -> find p (filter q l) = Some a.
Proof.
  induction l as [|b l IH]; simpl; [discriminate|].
  destruct (p b) eqn:P.
  - intros [= ->] Q. rewrite Q. simpl. now rewrite P.
  - intros F Q. destruct (q b); simpl; [rewrite P|]; now apply IH.
Qed.

(** X14: reconnection.  A user already in [onlineUsers] joins again from a
    new socket; when any other socket then disconnects, the old one
    included, the user's element is still there, under its old name and
    with the new socket. *)
Theorem reconnect_survives_old_disconnect (new_socket other_socket : string)
    (user : payload) (id : value) (e : user_entry) (s : state) :
  join_id user = Some id ->
  find (fun u => userId u === id) (onlineUsers s) = Some e ->
  other_socket <> new_socket ->
  find (fun u => userId u === id)
    (onlineUsers
       (st (on_disconnect other_socket (st (on_join new_socket user s))))) =
  Some {| userId := userId e; name := name e; socketId := new_socket |}.
Proof.
  intros J F Hne.
  rewrite (proj1 (on_disconnect_out _ _)), (on_join_passed _ _ _ _ J). simpl.
  unfold join_registry. rewrite F.
  apply find_filter_kept.
  - now apply update_first_find.
  - simpl. apply negb_true_iff, String.eqb_neq. congruence.
Qed.

Lemma reconnect_survives_old_disconnect_witness :
  find (fun u => userId u === VStr "u1")
    (onlineUsers (st (on_disconnect "s1" (st (on_join "s9" rejoin_as_alicia in_call))))) =
  Some {| userId := VStr "u1"; name := VStr "Alice"; socketId := "s9" |}.
Proof.
  apply (reconnect_survives_old_disconnect "s9" "s1" rejoin_as_alicia (VStr "u1")
           alice in_call); [reflexivity | reflexivity | discriminate].
Defined.

(** X15: a disconnect repeated on the same socket finds nothing left to do:
    the second one leaves the state of the first and sends the same
    [online-users] array and the same [discounnectUser] notice again. *)
Theorem disconnect_idempotent (socket_id : string) (s : state) :
  let s1 := st (on_disconnect socket_id s) in
  on_disconnect socket_id s1 =
  mkOutcome (Normal tt) s1 (disconnect_output socket_id (onlineUsers s1)).
Proof.
  intro s1.
  assert (F : find (fun u => socketId u =? socket_id) (onlineUsers s1) = None).
  { apply find_none_iff. intros u Hin. subst s1.
    rewrite (proj1 (on_disconnect_out _ _)) in Hin.
    apply filter_In in Hin. now apply negb_true_iff. }
  rewrite (on_disconnect_unknown _ _ F). simpl.
  rewrite (find_none_filter _ _ F). now destruct s1.
Qed.

(** ** The table of calls along a run *)

Lemma Map_set_keys (k x : value) (r : call_record) (m : jsmap) :
  In x (map fst (Map_set k r m)) -> x = k \/ In x (map fst m).
Proof.
  induction m as [|[k0 r0] m IH]; simpl.
  - intros [<-|[]]. now left.
  - destruct (same_value_zero k0 k); simpl.
    + intros [<-|H]; right; [now left | now right].
    + intros [<-|H]; [right; now left|].
      destruct (IH H) as [->|H']; [now left | right; now right].
Qed.

Lemma Map_set_distinct_keys (k : value) (r : call_record) (m : jsmap) :
  NoDup (map fst m) -> NoDup (map fst (Map_set k r m)).
Proof.
  induction m as [|[k0 r0] m IH]; simpl; intro ND.
  - constructor; [intros [] | constructor].
  - apply NoDup_cons_iff in ND. destruct ND as [Hfresh ND].
    destruct (same_value_zero k0 k) eqn:E; simpl.
    + now apply NoDup_cons.
    + apply NoDup_cons; [|now apply IH].
      intro Hin. apply Map_set_keys in Hin. destruct Hin as [->|Hin].
      * now rewrite same_value_zero_refl in E.
      * contradiction.
Qed.

Lemma Map_delete_distinct_keys (k : value) (m : jsmap) :
  NoDup (map fst m) -> NoDup (map fst (Map_delete k m)).
Proof.
  unfold Map_delete. induction m as [|e m IH]; simpl; intro ND; [constructor|].
  apply NoDup_cons_iff in ND. destruct ND as [Hfresh ND].
  destruct (same_value_zero (fst e) k); simpl; [now apply IH|].
  apply NoDup_cons; [|now apply IH].
  intro Hin. apply Hfresh. apply in_map_iff in Hin.
  destruct Hin as [e' [<- Hin]]. apply filter_In in Hin.
  apply in_map. exact (proj1 Hin).
Qed.

(** The loop removes the entries whose key is the key of a visited entry
    with [with === id]. *)
Lemma purge_filter (id : value) (entries : list (value * call_record)) :
  forall m,
  purge id entries m =
  filter (fun kv =>
    negb (existsb (fun e => (with_ (snd e) === id)
                            && same_value_zero (fst kv) (fst e)) entries)) m.
Proof.
  induction entries as [|e entries IH]; intro m; simpl.
  - symmetry. apply filter_true.
  - rewrite IH. destruct (with_ (snd e) === id); simpl.
    + unfold Map_delete. induction m as [|kv m IHm]; simpl; [reflexivity|].
      destruct (same_value_zero (fst kv) (fst e)); simpl; [exact IHm|].
      now rewrite IHm.
    + reflexivity.
Qed.

Lemma distinct_keys_entry (m : jsmap) (a b : value * call_record) :
  NoDup (map fst m) -> In a m -> In b m -> fst a = fst b -> a = b.
Proof.
  induction m as [|e m IH]; simpl; intros ND Ha Hb E; [destruct Ha|].
  apply NoDup_cons_iff in ND. destruct ND as [Hfresh ND].
  destruct Ha as [->|Ha], Hb as [->|Hb].
  - reflexivity.
  - elim Hfresh. rewrite E. now apply in_map.
  - elim Hfresh. rewrite <- E. now apply in_map.
  - now apply IH.
Qed.

Lemma purge_self (id : value) (m : jsmap) :
  NoDup (map fst m) ->
  purge id m m = filter (fun kv => negb (with_ (snd kv) === id)) m.
Proof.
  intro ND. rewrite purge_filter. apply filter_ext_in.
  intros kv Hin. f_equal.
  destruct (with_ (snd kv) === id) eqn:W.
  - apply existsb_exists. exists kv. split; [assumption|].
    now rewrite W, same_value_zero_refl.
  - destruct (existsb _ m) eqn:X; [|reflexivity].
    apply existsb_exists in X. destruct X as [e [He Hm]].
    apply andb_true_iff in Hm. destruct Hm as [We Ke].
    apply same_value_zero_spec in Ke.
    rewrite (distinct_keys_entry m kv e ND Hin He Ke) in W. congruence.
Qed.

Lemma purge_distinct_keys (id : value) (entries : list (value * call_record)) :
  forall m, NoDup (map fst m) -> NoDup (map fst (purge id entries m)).
Proof.
  induction entries as [|e entries IH]; intros m ND; simpl; [assumption|].
  apply IH. destruct (with_ (snd e) === id); [|assumption].
  now apply Map_delete_distinct_keys.
Qed.

Lemma handle_distinct_keys (socket_id : string) (e : event) (s : state) :
  NoDup (map fst (activeCalls s)) ->
  NoDup (map fst (activeCalls (st (handle socket_id e s)))).
Proof.
  intro ND. pose proof (handle_writes socket_id e s) as Fr.
  destruct e as [user|data|data|data|data|]; simpl in *.
  - now rewrite Fr.
  - now rewrite Fr.
  - destruct (field data "to") as [v|] eqn:F.
    + rewrite (on_answeredCall_eq _ _ _ _ F). simpl.
      now apply Map_set_distinct_keys, Map_set_distinct_keys.
    + now rewrite (on_answeredCall_throws _ _ _ F).
  - now rewrite Fr.
  - destruct (field data "to") as [v|] eqn:F.
    + rewrite (on_call_ended_eq _ _ _ _ F). simpl.
      now apply Map_delete_distinct_keys, Map_delete_distinct_keys.
    + now rewrite (on_call_ended_throws _ _ _ F).
  - destruct (find (fun u => socketId u =? socket_id) (onlineUsers s)) as [u|] eqn:F.
    + rewrite (on_disconnect_found _ _ _ F). simpl.
      now apply purge_distinct_keys, Map_delete_distinct_keys.
    + now rewrite (on_disconnect_unknown _ _ F).
Qed.

Lemma run_distinct_keys (events : list (string * event)) :
  forall s, NoDup (map fst (activeCalls s)) ->
            NoDup (map fst (activeCalls (run events s))).
Proof.
  induction events as [|[sid e] events IH]; intros s ND; simpl.
  - assumption.
  - apply IH. now apply handle_distinct_keys.
Qed.

Lemma filter_twice {A} (p q : A -> bool) (l : list A) :
  filter p (filter q l) = filter (fun a => q a && p a) l.
Proof.
  induction l as [|a l IH]; simpl; [reflexivity|].
  destruct (q a); simpl; [destruct (p a)|]; now rewrite IH.
Qed.

(** X16: what a disconnect does to the table of calls.  After any run of
    events from the initial state, when the handler resolves the socket to
    [user], the table it leaves is the table it found without the entry
    under that user's id and without the entries whose [with] is that id;
    all other entries stay, in their order, whoever they belong to. *)
Theorem disconnect_calls_exact (events : list (string * event))
    (socket_id : string) (user : user_entry) :
  let s := run events initial in
  find (fun u => socketId u =? socket_id) (onlineUsers s) = Some user ->
  activeCalls (st (on_disconnect socket_id s)) =
  filter (fun kv => negb (same_value_zero (fst kv) (userId user))
                    && negb (with_ (snd kv) === userId user))
    (activeCalls s).
Proof.
  intros s F. rewrite (on_disconnect_found _ _ _ F). simpl.
  rewrite purge_self.
  - unfold Map_delete. apply filter_twice.
  - apply Map_delete_distinct_keys, run_distinct_keys. constructor.
Qed.

Lemma disconnect_calls_exact_witness :
  activeCalls
    (st (on_disconnect "s2" (run (sample_events ++
       [("s4", AnsweredCall (PObj [("to", VStr "u5"); ("from", VStr "u4")]))])
       initial))) =
  [(VStr "u4", {| with_ := VStr "u5"; call_socketId := VStr "s4" |});
   (VStr "u5", {| with_ := VStr "u4"; call_socketId := VStr "u5" |})].
Proof.
  rewrite (disconnect_calls_exact (sample_events ++
       [("s4", AnsweredCall (PObj [("to", VStr "u5"); ("from", VStr "u4")]))])
       "s2" bob eq_refl).
  reflexivity.
Defined.

Lemma Map_get_In (k : value) (r : call_record) (m : jsmap) :
  Map_get k m = Some r -> In (k, r) m.
Proof.
  induction m as [|[k0 r0] m IH]; simpl; [discriminate|].
  destruct (same_value_zero k0 k) eqn:E.
  - apply same_value_zero_spec in E. subst k0. intros [= ->]. now left.
  - intro H. right. now apply IH.
Qed.

(** X17: a disconnect frees the peer.  After any run of events from the
    initial state, when the handler resolves the socket to [user] and the
    entry of some id [peer] in [activeCalls] names that user in its
    [with], the peer is no longer busy once the disconnect is handled. *)
Theorem disconnect_frees_peer (events : list (string * event))
    (socket_id : string) (user : user_entry) (peer : value) (r : call_record) :
  let s := run events initial in
  find (fun u => socketId u =? socket_id) (onlineUsers s) = Some user ->
  Map_get peer (activeCalls s) = Some r ->
  with_ r = userId user ->
  isBusy peer (st (on_disconnect socket_id s)) = false.
Proof.
  intros s F G W. unfold isBusy.
  destruct (Map_has peer (activeCalls (st (on_disconnect socket_id s)))) eqn:B;
    [|reflexivity].
  apply Map_has_In in B. destruct B as [r' Hin].
  destruct (on_disconnect_purges socket_id user s F) as (_ & H2 & H3).
  assert (ND : NoDup (map fst (activeCalls s))).
  { apply run_distinct_keys. constructor. }
  pose proof (distinct_keys_entry _ (peer, r') (peer, r) ND
                (H3 _ _ Hin) (Map_get_In _ _ _ G) eq_refl) as E.
  injection E as ->.
  pose proof (H2 _ _ Hin) as Hne. rewrite W in Hne.
  destruct (run_registry_ok events initial) as [_ T]; [split; constructor|].
  rewrite Forall_forall in T. apply find_some in F. destruct F as [Hu _].
  rewrite strict_eq_refl_truthy in Hne; [discriminate|].
  apply T. now apply in_map.
Qed.

Lemma disconnect_frees_peer_witness :
  isBusy (VStr "u2") (run sample_events initial) = true /\
  isBusy (VStr "u2") (st (on_disconnect "s1" (run sample_events initial))) = false.
Proof.
  split; [reflexivity|].
  exact (disconnect_frees_peer sample_events "s1" alice (VStr "u2")
           {| with_ := VStr "u1"; call_socketId := VStr "u2" |}
           eq_refl eq_refl eq_refl).
Defined.
